(** * MapProxy: KML tile subdivision and the Mapnik render source

    A shallow embedding of [mapproxy/service/kml.py] (class [KMLServer]) and
    [mapproxy/source/mapnik.py] (class [MapnikSource]).

    Conventions of the embedding:
    - Python floats (coordinates, wall-clock time) are rationals [Q]; the
      code only adds, subtracts and compares them.
    - A raised exception is the [Raise] branch of [result]; [None] is
      [option]'s [None].
    - Python dictionaries are stdpp [gmap]s. *)

From Stdlib Require Import QArith Qabs Qround Lqa ZArith Lia.
From stdpp Require Import gmap strings list.

(** ** Exceptions and results *)

Inductive exn : Type :=
| RequestError (msg : string) (status : option Z)
| TypeError
| IndexError
| BlankImage
| SourceError (msg : string)
| RuntimeError (args : list string)
| HTTPClientError (args : list string)
| OtherError (name : string).

Inductive result (A : Type) : Type :=
| Ok (a : A)
| Raise (e : exn).
Arguments Ok {A} a.
Arguments Raise {A} e.

Definition is_ok {A} (r : result A) : bool :=
  match r with Ok _ => true | Raise _ => false end.

(** ** Geometry shared by both modules *)

(** A bounding box [(minx, miny, maxx, maxy)]; the code indexes it [0..3]. *)
Record BBox : Type := mkBBox { minx : Q; miny : Q; maxx : Q; maxy : Q }.

(** Python's [a < b] on floats. *)
Definition Qlt_bool (a b : Q) : bool := negb (Qle_bool b a).

(** A spatial reference: its EPSG code and its [transform_bbox_to] method,
    which takes the destination's code, the box and [with_points].
    [SRS.__eq__] compares the identifiers. *)
Record SRS : Type := mkSRS {
  srs_code : Z;
  transform_bbox_to : Z -> BBox -> nat -> BBox
}.

Definition srs_eq (s : SRS) (code : Z) : bool := (srs_code s =? code)%Z.

Module kml.

Local Open Scope Q_scope.

(** A tile coordinate is the Python tuple [(x, y, z)]. *)
Definition TileCoord : Type := (Z * Z * Z)%type.
Definition level (t : TileCoord) : Z := snd t.

(** The part of [mapproxy.grid.TileGrid] that [KMLServer] calls.
    [get_affected_level_tiles] is the method on a box;
    [get_affected_level_tiles_None] is the same method handed [None] in
    place of a box, which is the grid's own business. *)
Record Grid : Type := mkGrid {
  srs : SRS;
  tile_size : Z * Z;
  internal_tile_coord : TileCoord -> option TileCoord;
  tile_bbox : TileCoord -> BBox;
  get_affected_level_tiles :
    BBox -> Z -> BBox * (Z * Z) * list (option TileCoord);
  get_affected_level_tiles_None :
    Z -> result (BBox * (Z * Z) * list (option TileCoord))
}.

(** class SubTile *)
Record SubTile : Type := mkSubTile { coord : TileCoord; bbox : BBox }.

(** Values that can sit in the dictionaries an authorization callback
    returns; [py_eq_True v] is Python's [v == True]. *)
Inductive pyval : Type :=
| PyBool (b : bool)
| PyInt (n : Z)
| PyStr (s : string)
| PyNone.

Definition py_eq_True (v : pyval) : bool :=
  match v with
  | PyBool b => b
  | PyInt n => (n =? 1)%Z
  | _ => false
  end.

(** The authorization result
    [{'authorized': ..., 'layers': {name: {'tile': ...}}}]. *)
Record AuthResult : Type := mkAuthResult {
  authorized : string;
  auth_layers : gmap string (gmap string pyval)
}.

(** The WSGI environment: only the ['mapproxy.authorize'] key is read. *)
Record Environ : Type := mkEnviron {
  mapproxy_authorize : option (string -> list string -> AuthResult)
}.

Record Http : Type := mkHttp { environ : Environ; script_url : string }.

Record KMLRequest : Type := mkKMLRequest {
  req_layer : string;
  req_tile : TileCoord;
  req_format : string;
  http : Http
}.

(** What [layer.render] hands back: the encoded tile. *)
Record Tile : Type := mkTile {
  tile_buffer : list Byte.byte; tile_timestamp : Q; tile_bytes : nat
}.

Record Layer : Type := mkLayer {
  name : string;
  grid : Grid;
  format : string;
  render : KMLRequest -> result Tile
}.

Record KMLServer : Type := mkKMLServer {
  layers : gmap string Layer;
  max_age : Z
}.

(** The arguments [kml] passes to the template. *)
Record KMLDoc : Type := mkKMLDoc {
  doc_tile : SubTile;
  doc_subtiles : list SubTile;
  doc_layer : string;
  doc_initial_level : bool;
  doc_subtile_grid : Z * Z;
  doc_tile_size : Z
}.

(** *** KMLServer.authorize_tile_layer *)

Definition forbidden : exn := RequestError "forbidden" (Some 403%Z).

Definition tile_flag (res : AuthResult) (layer_name : string) : pyval :=
  default (PyBool false)
    (default ∅ (auth_layers res !! layer_name) !! "tile").

Definition authorize_tile_layer (layer_name : string) (env : Environ)
  : result unit :=
  match mapproxy_authorize env with
  | Some cb =>
      let res := cb "kml" [layer_name] in
      if String.eqb (authorized res) "full" then Ok tt
      else if String.eqb (authorized res) "partial"
              && py_eq_True (tile_flag res layer_name) then Ok tt
      else Raise forbidden
  | None => Ok tt
  end.

(** *** KMLServer.layer *)

Definition layer (self : KMLServer) (tile_request : KMLRequest)
  : result Layer :=
  let n := req_layer tile_request in
  match layers self !! n with
  | Some l => Ok l
  | None =>
    match layers self !! (n ++ "_EPSG4326")%string with
    | Some l => Ok l
    | None =>
      match layers self !! (n ++ "_EPSG900913")%string with
      | Some l => Ok l
      | None => Raise (RequestError ("unknown layer: " ++ n)%string None)
      end
    end
  end.

(** *** KMLServer._tile_bbox *)

Definition _tile_bbox (tile_coord : TileCoord) (g : Grid) : option BBox :=
  match internal_tile_coord g tile_coord with
  | None => None
  | Some tc => Some (tile_bbox g tc)
  end.

(** *** KMLServer._tile_bbox_to_wgs *)

Definition max_extent : Q := 20037508.342789244.
Definition tolerance : Q := 0.1.

Definition _tile_bbox_to_wgs (src_bbox : BBox) (g : Grid) : BBox :=
  let bbox := transform_bbox_to (srs g) 4326%Z src_bbox 4%nat in
  if srs_eq (srs g) 900913%Z then
    let bbox1 :=
      if Qlt_bool (Qabs (miny src_bbox - - max_extent)) tolerance
      then mkBBox (minx bbox) (-90) (maxx bbox) (maxy bbox)
      else bbox in
    if Qlt_bool (Qabs (maxy src_bbox - max_extent)) tolerance
    then mkBBox (minx bbox1) (miny bbox1) (maxx bbox1) 90
    else bbox1
  else bbox.

(** *** KMLServer._tile_wgs_bbox *)

Definition _tile_wgs_bbox (tile_coord : TileCoord) (g : Grid) : option BBox :=
  match _tile_bbox tile_coord g with
  | None => None
  | Some src_bbox => Some (_tile_bbox_to_wgs src_bbox g)
  end.

(** *** KMLServer._get_subtiles *)

(** The test of line 132: [sub_bbox[0] >= bbox[0] and sub_bbox[1] >= bbox[1]]. *)
Definition lower_left_kept (sub_bbox bbox : BBox) : bool :=
  Qle_bool (minx bbox) (minx sub_bbox) && Qle_bool (miny bbox) (miny sub_bbox).

(** The [for coord in tiles] loop; [subtiles] is the list built so far. *)
Fixpoint subtiles_loop (g : Grid) (bbox : BBox)
  (tiles : list (option TileCoord)) (subtiles : list SubTile) : list SubTile :=
  match tiles with
  | [] => subtiles
  | None :: rest => subtiles_loop g bbox rest subtiles
  | Some c :: rest =>
    match _tile_bbox c g with
    | Some sub_bbox =>
      if lower_left_kept sub_bbox bbox
      then subtiles_loop g bbox rest
             (subtiles ++ [mkSubTile c (_tile_bbox_to_wgs sub_bbox g)])
      else subtiles_loop g bbox rest subtiles
    | None => subtiles_loop g bbox rest subtiles
    end
  end.

(** The loop when [bbox] is [None]: the first candidate that has a box
    makes line 132 subscript [None], a [TypeError]; without such a
    candidate nothing is added. *)
Fixpoint subtiles_loop_None (g : Grid) (tiles : list (option TileCoord))
  : result (list SubTile) :=
  match tiles with
  | [] => Ok []
  | None :: rest => subtiles_loop_None g rest
  | Some c :: rest =>
    match _tile_bbox c g with
    | Some _ => Raise TypeError
    | None => subtiles_loop_None g rest
    end
  end.

(** With no box for [tile], [None] is handed on to the grid. *)
Definition _get_subtiles (tile : TileCoord) (l : Layer)
  : result ((Z * Z) * list SubTile) :=
  match _tile_bbox tile (grid l) with
  | None =>
    match get_affected_level_tiles_None (grid l) (level tile + 1)%Z with
    | Raise e => Raise e
    | Ok (_, tile_grid, tiles) =>
      match subtiles_loop_None (grid l) tiles with
      | Raise e => Raise e
      | Ok subtiles => Ok (tile_grid, subtiles)
      end
    end
  | Some bbox =>
    let '(_, tile_grid, tiles) :=
      get_affected_level_tiles (grid l) bbox (level tile + 1)%Z in
    Ok (tile_grid, subtiles_loop (grid l) bbox tiles [])
  end.

(** *** KMLServer.kml and KMLServer.map *)

Definition outside_msg : string :=
  "The requested tile is outside the bounding box of the tile map.".

Definition kml (self : KMLServer) (map_request : KMLRequest)
  : result KMLDoc :=
  match layer self map_request with
  | Raise e => Raise e
  | Ok l =>
    match authorize_tile_layer (name l) (environ (http map_request)) with
    | Raise e => Raise e
    | Ok _ =>
      let tile_coord := req_tile map_request in
      let initial_level := (level tile_coord =? 0)%Z in
      match _tile_wgs_bbox tile_coord (grid l) with
      | None => Raise (RequestError outside_msg None)
      | Some bbox =>
        let tile := mkSubTile tile_coord bbox in
        match _get_subtiles tile_coord l with
        | Raise e => Raise e
        | Ok (subtile_grid, subtiles) =>
          Ok (mkKMLDoc tile subtiles (req_layer map_request) initial_level
                subtile_grid (fst (tile_size (grid l))))
        end
      end
    end
  end.

Definition map (self : KMLServer) (map_request : KMLRequest) : result Tile :=
  match layer self map_request with
  | Raise e => Raise e
  | Ok l =>
    match authorize_tile_layer (name l) (environ (http map_request)) with
    | Raise e => Raise e
    | Ok _ => render l map_request
    end
  end.

(** *** KMLServer.check_map_request *)

Definition check_map_request (self : KMLServer) (map_request : KMLRequest)
  : result unit :=
  match layers self !! req_layer map_request with
  | Some _ => Ok tt
  | None =>
    Raise (RequestError ("unknown layer: " ++ req_layer map_request)%string
             None)
  end.

End kml.

(** ** The tile pyramid *)

Module tile_grid.

Import kml.
Local Open Scope Q_scope.

(** Modelled from the spec: [mapproxy.grid.TileGrid] is not part of the
    sources at hand. The spec describes a grid as a tile pixel size, a native
    spatial reference and per-level extents, a "hierarchical decomposition of
    a spatial extent into fixed-size cells per zoom level, each level having
    twice the cell density of the previous"; a tile outside "the grid's
    defined level extents" has no cell; the candidates of a subdivision are
    the tiles of the level "whose bounding boxes are affected by / overlap"
    a box, "four (or, at grid edges, fewer)" for a parent tile. The root
    level is a single cell covering the whole extent (tile (0,0,0) of the
    spec's scenario). *)
Record Pyramid : Type := mkPyramid {
  pyr_srs : SRS;
  pyr_tile_size : Z * Z;
  origin_x : Q;
  origin_y : Q;
  width : Q;
  height : Q;
  num_levels : Z
}.

(** Cells per axis at level [z]. *)
Definition cells (z : Z) : Z := (2 ^ z)%Z.

Definition cell_w (p : Pyramid) (z : Z) : Q := width p / inject_Z (cells z).
Definition cell_h (p : Pyramid) (z : Z) : Q := height p / inject_Z (cells z).

Definition valid_level (p : Pyramid) (z : Z) : bool :=
  (0 <=? z)%Z && (z <? num_levels p)%Z.

Definition pyr_internal_tile_coord (p : Pyramid) (t : TileCoord)
  : option TileCoord :=
  let '(x, y, z) := t in
  if valid_level p z
     && (0 <=? x)%Z && (x <? cells z)%Z && (0 <=? y)%Z && (y <? cells z)%Z
  then Some t else None.

Definition pyr_tile_bbox (p : Pyramid) (t : TileCoord) : BBox :=
  let '(x, y, z) := t in
  mkBBox (origin_x p + inject_Z x * cell_w p z)
         (origin_y p + inject_Z y * cell_h p z)
         (origin_x p + inject_Z (x + 1) * cell_w p z)
         (origin_y p + inject_Z (y + 1) * cell_h p z).

(** Index range, along one axis, of the cells of size [c] from [origin]
    whose interior meets the interval [(lo, hi)], cut to [0 .. n-1]. *)
Definition axis_range (origin c lo hi : Q) (n : Z) : Z * Z :=
  (Z.max 0 (Qfloor ((lo - origin) / c)),
   Z.min (n - 1) (Qceiling ((hi - origin) / c) - 1)).

Definition span (r : Z * Z) : list Z := seqZ (fst r) (snd r - fst r + 1).

Definition pyr_get_affected_level_tiles (p : Pyramid) (b : BBox) (lvl : Z)
  : BBox * (Z * Z) * list (option TileCoord) :=
  if valid_level p lvl then
    let rx := axis_range (origin_x p) (cell_w p lvl) (minx b) (maxx b)
                (cells lvl) in
    let ry := axis_range (origin_y p) (cell_h p lvl) (miny b) (maxy b)
                (cells lvl) in
    (mkBBox (origin_x p + inject_Z (fst rx) * cell_w p lvl)
            (origin_y p + inject_Z (fst ry) * cell_h p lvl)
            (origin_x p + inject_Z (snd rx + 1) * cell_w p lvl)
            (origin_y p + inject_Z (snd ry + 1) * cell_h p lvl),
     (Z.max 0 (snd rx - fst rx + 1), Z.max 0 (snd ry - fst ry + 1)),
     y ← span ry; x ← span rx; [Some (x, y, lvl)])
  else (b, (0, 0)%Z, []).

(** The pyramid's cells with a given way of listing affected tiles.
    Handed [None], a grid reads [bbox[0]] and fails. *)
Definition grid_listing (p : Pyramid)
  (affected : BBox -> Z -> BBox * (Z * Z) * list (option TileCoord)) : Grid :=
  mkGrid (pyr_srs p) (pyr_tile_size p) (pyr_internal_tile_coord p)
    (pyr_tile_bbox p) affected (fun _ => Raise TypeError).

Definition to_grid (p : Pyramid) : Grid :=
  grid_listing p (pyr_get_affected_level_tiles p).

(** A grid that lists more than it has to: every tile of the level that
    starts before the box ends, from the origin on. *)
Definition pyr_tiles_up_to (p : Pyramid) (b : BBox) (lvl : Z)
  : BBox * (Z * Z) * list (option TileCoord) :=
  if valid_level p lvl then
    let rx := axis_range (origin_x p) (cell_w p lvl) (minx b) (maxx b)
                (cells lvl) in
    let ry := axis_range (origin_y p) (cell_h p lvl) (miny b) (maxy b)
                (cells lvl) in
    (mkBBox (origin_x p) (origin_y p)
            (origin_x p + inject_Z (snd rx + 1) * cell_w p lvl)
            (origin_y p + inject_Z (snd ry + 1) * cell_h p lvl),
     (Z.max 0 (snd rx + 1), Z.max 0 (snd ry + 1)),
     y ← span (0%Z, snd ry); x ← span (0%Z, snd rx); [Some (x, y, lvl)])
  else (b, (0, 0)%Z, []).

Definition pyr_layer (p : Pyramid) (n : string) : Layer :=
  mkLayer n (to_grid p) "png" (fun _ => Raise (OtherError "unrendered")).

Definition listing_layer (p : Pyramid)
  (affected : BBox -> Z -> BBox * (Z * Z) * list (option TileCoord))
  (n : string) : Layer :=
  mkLayer n (grid_listing p affected) "png"
    (fun _ => Raise (OtherError "unrendered")).

(** A tile that has a cell in the pyramid. *)
Definition valid_tile (p : Pyramid) (t : TileCoord) : Prop :=
  let '(x, y, z) := t in
  ((0 <= z < num_levels p) /\ (0 <= x < cells z) /\ (0 <= y < cells z))%Z.

(** The tiles [k] levels below [t] that lie inside [t]. *)
Definition below (p : Pyramid) (t : TileCoord) (k : Z) (c : TileCoord)
  : Prop :=
  let '(x, y, z) := t in
  (z + k < num_levels p)%Z /\
  exists x' y', c = (x', y', (z + k)%Z) /\
    (x * cells k <= x' < (x + 1) * cells k)%Z /\
    (y * cells k <= y' < (y + 1) * cells k)%Z.

End tile_grid.

(** ** The Mapnik source *)

Module mapnik.

Local Open Scope Q_scope.

Definition bytes : Type := list Byte.byte.

(** [mapproxy.layer.MapQuery]: the fields [MapnikSource] reads. *)
Record MapQuery : Type := mkMapQuery {
  q_bbox : BBox;
  q_size : Z * Z;
  q_srs : SRS;
  q_format : string
}.

(** Observable steps of a render, in the order they happen. *)
Inductive event : Type :=
| EvAcquire (l : string)
| EvRelease (l : string)
| EvBackendStart
| EvBackendEnd.

#[global] Instance event_eq_dec : EqDecision event.
Proof. solve_decision. Defined.

(** One [log_request] record: what was rendered, the status string, the
    byte size ([None] is Python's [None]), the method and the duration. *)
Record LogEntry : Type := mkLogEntry {
  log_mapfile : string;
  log_bbox : BBox;
  log_srs_code : Z;
  log_query_size : Z * Z;
  log_status : string;
  log_size : option nat;
  log_method : string;
  log_duration : Q
}.

(** Everything a render can read or change outside its own variables:
    the wall clock, the locks currently held, the steps taken so far and
    the request log. *)
Record World : Type := mkWorld {
  now : Q;
  held : gset string;
  trace : list event;
  request_log : list LogEntry
}.

(** Code that may raise and may change the world. *)
Definition M (A : Type) : Type := World -> result A * World.

Definition ret {A} (a : A) : M A := fun w => (Ok a, w).
Definition raise {A} (e : exn) : M A := fun w => (Raise e, w).
Definition bind {A B} (m : M A) (k : A -> M B) : M B :=
  fun w => match m w with
           | (Ok a, w') => k a w'
           | (Raise e, w') => (Raise e, w')
           end.

Notation "'do' x <- m ; k" := (bind m (fun x => k))
  (at level 10, x name, m at level 100, k at level 200, only parsing).

(** [try: body except ...: handler]: [handler e] is [None] when no
    [except] clause matches [e]. *)
Definition try_except {A} (body : M A) (handler : exn -> option (M A)) : M A :=
  fun w => match body w with
           | (Ok a, w') => (Ok a, w')
           | (Raise e, w') =>
             match handler e with
             | Some h => h w'
             | None => (Raise e, w')
             end
           end.

(** [try: body finally: fin]: [fin] sees what [body] produced, runs on
    both exits, and the outcome of [body] is then passed on. *)
Definition try_finally {A} (body : M A) (fin : option A -> World -> World)
  : M A :=
  fun w => match body w with
           | (Ok a, w') => (Ok a, fin (Some a) w')
           | (Raise e, w') => (Raise e, fin None w')
           end.

(** The [mapnik] module, [tile_grid(3857).get_affected_bbox_and_level] and
    the [%] operator on the map file name are outside the sources at hand.
    [mapnik_run] stands for lines 93-100 as a whole: for a map file and a
    query it says how long the engine works and whether it yields the
    encoded image or raises. [webmercator_level] is the level line 76
    computes and [percent_format] the [%] of line 78; either may raise
    (a malformed name makes [%] raise [ValueError] or [KeyError]). *)
Record Runtime : Type := mkRuntime {
  mapnik_run : string -> MapQuery -> Q * result bytes;
  webmercator_level : MapQuery -> result Z;
  percent_format : string -> Z -> result string
}.

Record ResRange : Type := mkResRange {
  contains : BBox -> Z * Z -> SRS -> bool
}.

Record Coverage : Type := mkCoverage {
  cov_bbox : BBox;
  cov_srs : SRS;
  intersects : BBox -> SRS -> bool
}.

Inductive Extent : Type :=
| DefaultMapExtent
| MapExtent (b : BBox) (s : SRS).

Record ImageOptions : Type := mkImageOptions {
  opt_transparent : option bool;
  opt_opacity : option Q;
  opt_format : option string
}.

Record ImageSource : Type := mkImageSource {
  img_source : bytes;
  img_size : Z * Z;
  img_opts : ImageOptions;
  img_opacity : option Q
}.

Record MapnikSource : Type := mkMapnikSource {
  mapfile : string;
  coverage : option Coverage;
  res_range : option ResRange;
  lock : option string;
  extent : Extent;
  transparent : option bool;
  opacity : option Q
}.

(** *** MapnikSource.__init__; an omitted keyword argument is [None]. *)
Definition __init__ (mapfile : string) (image_opts : option ImageOptions)
  (coverage : option Coverage) (res_range : option ResRange)
  (lock : option string) : MapnikSource :=
  mkMapnikSource mapfile coverage res_range lock
    (match coverage with
     | Some c => MapExtent (cov_bbox c) (cov_srs c)
     | None => DefaultMapExtent
     end)
    (image_opts ≫= opt_transparent)
    (image_opts ≫= opt_opacity).

(** [MapnikSource(mapfile)]: every keyword argument left out. *)
Definition new_source (mapfile : string) : MapnikSource :=
  __init__ mapfile None None None None.

(** Modelled from the spec: [mapproxy.client.log.log_request] is not part of
    the sources at hand; it "records duration and success/failure for
    observability", here by appending to the request log. *)
Definition log_request (mapfile : string) (q : MapQuery) (status : string)
  (size : option nat) (method : string) (duration : Q) (w : World) : World :=
  mkWorld (now w) (held w) (trace w)
    (request_log w ++
     [mkLogEntry mapfile (q_bbox q) (srs_code (q_srs q)) (q_size q)
        status size method duration]).

Definition emit (ev : event) (w : World) : World :=
  mkWorld (now w) (held w) (trace w ++ [ev]) (request_log w).

Definition advance (d : Q) (w : World) : World :=
  mkWorld (now w + d) (held w) (trace w) (request_log w).

(** The body of the [try] of [_render_mapfile]: the engine is entered, works
    for some time, and is left with data or with a fault. *)
Definition mapnik_calls (rt : Runtime) (mapfile : string) (query : MapQuery)
  : M bytes :=
  fun w =>
    let '(d, r) := mapnik_run rt mapfile query in
    (r, emit EvBackendEnd (advance d (emit EvBackendStart w))).

(** Python's truth value of a byte string. *)
Definition truthy (data : bytes) : bool :=
  match data with [] => false | _ => true end.

(** *** MapnikSource._render_mapfile *)
Definition _render_mapfile (rt : Runtime) (self : MapnikSource)
  (mapfile : string) (query : MapQuery) : M ImageSource :=
  fun w =>
    let start_time := now w in
    (do data <-
       try_finally (mapnik_calls rt mapfile query)
         (fun data w' =>
            let data_ok := match data with Some d => truthy d | None => false end in
            let size := match data with
                        | Some d => if truthy d then Some (length d) else None
                        | None => None
                        end in
            log_request mapfile query (if data_ok then "200" else "500")
              size "API" (now w' - start_time) w');
     ret (mkImageSource data (q_size query)
            (mkImageOptions (transparent self) None (Some (q_format query)))
            None)) w.

(** Modelled from the spec: [mapproxy.util.async.run_non_blocking] is not
    part of the sources at hand; the call is offloaded, "yet the caller still
    receives the result synchronously". *)
Definition run_non_blocking {A} (task : M A) : M A := task.

(** *** MapnikSource.render_mapfile *)
Definition render_mapfile (rt : Runtime) (self : MapnikSource)
  (mapfile : string) (query : MapQuery) : M ImageSource :=
  run_non_blocking (_render_mapfile rt self mapfile query).

(** Modelled from the spec: the object [self.lock()] returns is "an
    injectable mutual-exclusion primitive (acquire/release capability)";
    entering the [with] block acquires it, leaving the block, on either
    exit, releases it. *)
Definition acquire (l : string) (w : World) : World :=
  mkWorld (now w) ({[l]} ∪ held w) (trace w ++ [EvAcquire l]) (request_log w).

Definition release (l : string) (w : World) : World :=
  mkWorld (now w) (held w ∖ {[l]}) (trace w ++ [EvRelease l]) (request_log w).

Definition with_lock {A} (l : string) (body : M A) : M A :=
  fun w => let '(r, w') := body (acquire l w) in (r, release l w').

Definition has_level_placeholder (mapfile : string) : bool :=
  match String.index 0 "%(webmercator_level)" mapfile with
  | Some _ => true
  | None => false
  end.

(** Lines 74-78 of [render]: the map file name with the level filled
    in, or the error raised on the way. *)
Definition resolve_mapfile (rt : Runtime) (self : MapnikSource)
  (query : MapQuery) : result string :=
  if has_level_placeholder (mapfile self)
  then match webmercator_level rt query with
       | Ok level => percent_format rt (mapfile self) level
       | Raise e => Raise e
       end
  else Ok (mapfile self).

(** *** MapnikSource.render *)
Definition render (rt : Runtime) (self : MapnikSource) (query : MapQuery)
  : M ImageSource :=
  match resolve_mapfile rt self query with
  | Raise e => raise e
  | Ok mapfile =>
    match lock self with
    | Some l => with_lock l (render_mapfile rt self mapfile query)
    | None => render_mapfile rt self mapfile query
    end
  end.

(** [ex.args[0]] *)
Definition first_arg (args : list string) : result string :=
  match args with
  | a :: _ => Ok a
  | [] => Raise IndexError
  end.

Definition raise_source_error {A} (args : list string) : M A :=
  match first_arg args with
  | Ok msg => raise (SourceError msg)
  | Raise e => raise e
  end.

Definition set_opacity (resp : ImageSource) (o : option Q) : ImageSource :=
  mkImageSource (img_source resp) (img_size resp) (img_opts resp) o.

Definition out_of_range (self : MapnikSource) (query : MapQuery) : bool :=
  match res_range self with
  | Some r => negb (contains r (q_bbox query) (q_size query) (q_srs query))
  | None => false
  end.

Definition no_coverage (self : MapnikSource) (query : MapQuery) : bool :=
  match coverage self with
  | Some c => negb (intersects c (q_bbox query) (q_srs query))
  | None => false
  end.

(** *** MapnikSource.get_map *)
Definition get_map (rt : Runtime) (self : MapnikSource) (query : MapQuery)
  : M ImageSource :=
  if out_of_range self query then raise BlankImage
  else if no_coverage self query then raise BlankImage
  else
    try_except
      (do resp <-
         try_except (render rt self query)
           (fun ex => match ex with
                      | RuntimeError args => Some (raise_source_error args)
                      | _ => None
                      end);
       ret (set_opacity resp (opacity self)))
      (fun e => match e with
                | HTTPClientError args => Some (raise_source_error args)
                | _ => None
                end).

(** A world in which nothing has happened yet. *)
Definition idle : World := mkWorld 0 ∅ [] [].

(** Number of times the engine was entered. *)
Definition backend_calls (w : World) : nat :=
  length (filter (fun ev => ev = EvBackendStart) (trace w)).

End mapnik.

(** ** Concurrent renders *)

Module threads.

Import mapnik.

(** The steps one call of [MapnikSource.render] takes, as seen from
    outside: the events it adds to an empty trace. *)
Definition render_events (rt : Runtime) (self : MapnikSource)
  (query : MapQuery) : list event :=
  trace (snd (render rt self query idle)).

(** Request handlers running [render] side by side: what each still has
    to do, the locks held, and the number of handlers inside the engine
    (the shared counter of the spec). *)
Record Config : Type := mkConfig {
  pending : list (list event);
  locks : gset string;
  in_backend : nat
}.

(** One handler takes its next step. Acquiring waits for the lock to be
    free; every other step is always possible. *)
Inductive step : Config -> Config -> Prop :=
| step_acquire (c : Config) (i : nat) (l : string) (rest : list event) :
    pending c !! i = Some (EvAcquire l :: rest) ->
    l ∉ locks c ->
    step c (mkConfig (<[i:=rest]> (pending c)) ({[l]} ∪ locks c)
              (in_backend c))
| step_release (c : Config) (i : nat) (l : string) (rest : list event) :
    pending c !! i = Some (EvRelease l :: rest) ->
    step c (mkConfig (<[i:=rest]> (pending c)) (locks c ∖ {[l]})
              (in_backend c))
| step_backend_start (c : Config) (i : nat) (rest : list event) :
    pending c !! i = Some (EvBackendStart :: rest) ->
    step c (mkConfig (<[i:=rest]> (pending c)) (locks c)
              (S (in_backend c)))
| step_backend_end (c : Config) (i : nat) (rest : list event) :
    pending c !! i = Some (EvBackendEnd :: rest) ->
    step c (mkConfig (<[i:=rest]> (pending c)) (locks c)
              (Nat.pred (in_backend c))).

(** All handlers about to call [render] on the same source. *)
Definition start (rt : Runtime) (self : MapnikSource)
  (queries : list MapQuery) : Config :=
  mkConfig (List.map (render_events rt self) queries) ∅ 0.

Definition reachable (rt : Runtime) (self : MapnikSource)
  (queries : list MapQuery) (c : Config) : Prop :=
  rtc step (start rt self queries) c.

(** Executable single step, for running schedules: handler [i] moves. *)
Definition step_of (c : Config) (i : nat) : option Config :=
  match pending c !! i with
  | Some (EvAcquire l :: rest) =>
    if decide (l ∈ locks c) then None
    else Some (mkConfig (<[i:=rest]> (pending c)) ({[l]} ∪ locks c)
                 (in_backend c))
  | Some (EvRelease l :: rest) =>
    Some (mkConfig (<[i:=rest]> (pending c)) (locks c ∖ {[l]})
            (in_backend c))
  | Some (EvBackendStart :: rest) =>
    Some (mkConfig (<[i:=rest]> (pending c)) (locks c) (S (in_backend c)))
  | Some (EvBackendEnd :: rest) =>
    Some (mkConfig (<[i:=rest]> (pending c)) (locks c)
            (Nat.pred (in_backend c)))
  | _ => None
  end.

Fixpoint run_schedule (c : Config) (sched : list nat) : option Config :=
  match sched with
  | [] => Some c
  | i :: rest =>
    match step_of c i with
    | Some c' => run_schedule c' rest
    | None => None
    end
  end.

(** A handler that has been given the lock and has not released it yet,
    and one that is inside the engine, read off what they still have to do. *)
Definition holding (todo : list event) : bool :=
  match todo with
  | EvBackendStart :: _ | EvBackendEnd :: _ | EvRelease _ :: _ => true
  | _ => false
  end.

Definition inside (todo : list event) : bool :=
  match todo with
  | EvBackendEnd :: _ => true
  | _ => false
  end.

Fixpoint count_if {A} (f : A -> bool) (l : list A) : nat :=
  match l with
  | [] => 0
  | x :: rest => (if f x then 1 else 0) + count_if f rest
  end.

(** What is left of a render under lock [l] at each point of its run. *)
Definition on_track (l : string) (todo : list event) : Prop :=
  todo = [EvAcquire l; EvBackendStart; EvBackendEnd; EvRelease l] \/
  todo = [EvBackendStart; EvBackendEnd; EvRelease l] \/
  todo = [EvBackendEnd; EvRelease l] \/
  todo = [EvRelease l] \/
  todo = [].

(** One handler at most holds the lock, and only a handler holding it is
    inside the engine. *)
Definition exclusive (l : string) (c : Config) : Prop :=
  Forall (on_track l) (pending c) /\
  count_if holding (pending c)
  = (if decide (l ∈ locks c) then 1 else 0)%nat /\
  in_backend c = count_if inside (pending c).

(** Every handler has returned from [render]. *)
Definition finished (c : Config) : Prop :=
  Forall (fun todo => todo = []) (pending c).

End threads.

(** ** Statements the properties below are phrased with *)

Module wording.

Import kml.
Local Open Scope Q_scope.

(** The lower-left corner of [sub] lies in [b], borders included. *)
Definition corner_in_bbox (sub b : BBox) : Prop :=
  (minx b <= minx sub /\ minx sub <= maxx b) /\
  (miny b <= miny sub /\ miny sub <= maxy b).

Definition corner_in_bboxb (sub b : BBox) : bool :=
  Qle_bool (minx b) (minx sub) && Qle_bool (minx sub) (maxx b)
  && Qle_bool (miny b) (miny sub) && Qle_bool (miny sub) (maxy b).

(** Two boxes share more than a border. *)
Definition bbox_overlaps (a b : BBox) : Prop :=
  (minx a < maxx b /\ minx b < maxx a) /\
  (miny a < maxy b /\ miny b < maxy a).

Definition bbox_overlapsb (a b : BBox) : bool :=
  Qlt_bool (minx a) (maxx b) && Qlt_bool (minx b) (maxx a)
  && Qlt_bool (miny a) (maxy b) && Qlt_bool (miny b) (maxy a).

(** The candidates the grid proposes for [tile] at the next level. *)
Definition candidates (tile : TileCoord) (bbox : BBox) (l : Layer)
  : list (option TileCoord) :=
  snd (get_affected_level_tiles (grid l) bbox (level tile + 1)%Z).

(** Subdividing straight to level+2: the tiles two levels down that the
    parent's box affects and whose lower-left corner falls in that box. *)
Definition subdivide_to_level2 (tile : TileCoord) (l : Layer)
  : result (list TileCoord) :=
  match _tile_bbox tile (grid l) with
  | None => Raise TypeError
  | Some bbox =>
    Ok (oc ← snd (get_affected_level_tiles (grid l) bbox (level tile + 2)%Z);
        match oc with
        | Some c =>
          match _tile_bbox c (grid l) with
          | Some sb => if corner_in_bboxb sb bbox then [c] else []
          | None => []
          end
        | None => []
        end)
  end.

(** Subdividing every tile of [children] once, in order. *)
Fixpoint subdivide_each (l : Layer) (children : list SubTile)
  : result (list TileCoord) :=
  match children with
  | [] => Ok []
  | ch :: rest =>
    match _get_subtiles (coord ch) l with
    | Raise e => Raise e
    | Ok (_, subs) =>
      match subdivide_each l rest with
      | Raise e => Raise e
      | Ok more => Ok (List.map coord subs ++ more)
      end
    end
  end.

(** Subdividing once, then subdividing each child that was kept. *)
Definition subdivide_twice (tile : TileCoord) (l : Layer)
  : result (list TileCoord) :=
  match _get_subtiles tile l with
  | Raise e => Raise e
  | Ok (_, subs) => subdivide_each l subs
  end.

(** A request for a tile without a cell "completes without raising an
    error and yields zero child regions". *)
Definition empty_subdivision (self : KMLServer) (req : KMLRequest) : Prop :=
  exists doc, kml self req = Ok doc /\ doc_subtiles doc = [].


(** What the dedup rule asks of the grid's list of affected tiles, for the
    box of a tile [t] and the level [k] below it: every tile of that level
    overlapping the box is listed, nothing of another level is, and a
    listed tile that starts at or after the box's lower-left corner
    overlaps the box. Tiles that start before that corner may be listed
    freely. *)
Definition lists_candidates (p : tile_grid.Pyramid)
  (affected : BBox -> Z -> BBox * (Z * Z) * list (option TileCoord)) : Prop :=
  forall (t : TileCoord) (k : Z) (c : TileCoord),
    tile_grid.valid_tile p t -> (0 <= k)%Z ->
    let b := tile_grid.pyr_tile_bbox p t in
    let listed := In (Some c) (snd (affected b (level t + k)%Z)) in
    (tile_grid.valid_tile p c -> level c = (level t + k)%Z ->
     bbox_overlaps (tile_grid.pyr_tile_bbox p c) b -> listed) /\
    (listed ->
     level c = (level t + k)%Z /\
     (tile_grid.valid_tile p c ->
      minx b <= minx (tile_grid.pyr_tile_bbox p c) ->
      miny b <= miny (tile_grid.pyr_tile_bbox p c) ->
      bbox_overlaps (tile_grid.pyr_tile_bbox p c) b)).

(** [c] is one of the tiles the KML document of [t] links to. *)
Definition links_to (l : Layer) (t c : TileCoord) : Prop :=
  exists tile_grid subs,
    _get_subtiles t l = Ok (tile_grid, subs) /\ In c (List.map coord subs).


End wording.

(** ** Sample data *)

Module samples.

Import kml tile_grid mapnik.
Local Open Scope Q_scope.

(** A reference whose transformation leaves boxes as they are. *)
Definition plain_srs (code : Z) : SRS := mkSRS code (fun _ b _ => b).

(** Three levels over the full extent of the spherical web projection. *)
Definition mercator : Pyramid :=
  mkPyramid (plain_srs 900913) (256, 256)%Z
    (- 20037508.342789244) (- 20037508.342789244)
    40075016.685578488 40075016.685578488 3.

Definition osm : Layer := pyr_layer mercator "osm".

Definition world_box : BBox :=
  mkBBox (- 20037508.342789244) (- 20037508.342789244)
         20037508.342789244 20037508.342789244.

Definition open_env : Environ := mkEnviron None.

Definition server : KMLServer := mkKMLServer {[ "osm" := osm ]} 3600.

Definition request_for (t : TileCoord) (env : Environ) : KMLRequest :=
  mkKMLRequest "osm" t "kml" (mkHttp env "http://localhost/").

Definition grant (how : string) (flag : pyval) : Environ :=
  mkEnviron (Some (fun _ names =>
    mkAuthResult how
      (list_to_map ((fun n => (n, {[ "tile" := flag ]})) <$> names)))).

Definition query : MapQuery :=
  mkMapQuery world_box (256, 256)%Z (plain_srs 900913) "png".

Definition png : bytes := [Byte.x89; Byte.x50; Byte.x4e; Byte.x47].

(** Engines: one that draws, one that lacks a font, one whose client
    fails, one that yields no bytes at all. *)
Definition engine (d : Q) (r : result bytes) : Runtime :=
  mkRuntime (fun _ _ => (d, r)) (fun _ => Ok 0%Z) (fun s _ => Ok s).

Definition drawing : Runtime := engine 0.25 (Ok png).
Definition no_font : Runtime := engine 0.5 (Raise (RuntimeError ["font not found"])).

Definition never : ResRange := mkResRange (fun _ _ _ => false).
Definition nowhere : Coverage :=
  mkCoverage world_box (plain_srs 900913) (fun _ _ => false).

Definition plain_source : MapnikSource := new_source "map.xml".
Definition out_of_range_source : MapnikSource :=
  __init__ "map.xml" None None (Some never) None.
Definition uncovered_source : MapnikSource :=
  __init__ "map.xml" None (Some nowhere) None None.
Definition locked_source : MapnikSource :=
  __init__ "map.xml" None None None (Some "mapnik.lck").

(** A server that knows the layer only under its suffixed name. *)
Definition osm_4326 : Layer := pyr_layer mercator "osm_EPSG4326".
Definition suffixed_server : KMLServer :=
  mkKMLServer {[ "osm_EPSG4326" := osm_4326 ]} 3600.

Definition unlocked_other (w : World) : World :=
  mkWorld (now w) ({["other.lck"]} ∪ held w) (trace w) (request_log w).

Definition no_args : Runtime := engine 0.5 (Raise (RuntimeError [])).

(** Four levels, and a layer over the grid that lists every tile from the
    origin on. *)
Definition deep : Pyramid :=
  mkPyramid (plain_srs 900913) (256, 256)%Z
    (- 20037508.342789244) (- 20037508.342789244)
    40075016.685578488 40075016.685578488 4.

Definition osm_wide : Layer :=
  listing_layer deep (pyr_tiles_up_to deep) "osm".

(** An engine whose [%] fills in the level of a well-formed name and
    rejects a name that ends inside the placeholder. *)
Definition formatting : Runtime :=
  mkRuntime (fun _ _ => (0.25, Ok png)) (fun _ => Ok 7%Z)
    (fun s lvl =>
       if String.eqb s "osm-%(webmercator_level)s.xml" then
         Ok (if (lvl =? 7)%Z then "osm-7.xml" else "osm.xml")
       else Raise (OtherError "ValueError")).

Definition levelled_source : MapnikSource :=
  new_source "osm-%(webmercator_level)s.xml".
Definition malformed_source : MapnikSource :=
  new_source "osm-%(webmercator_level)".

End samples.

(** * Properties *)

Import kml tile_grid mapnik wording.
Local Open Scope Q_scope.

Lemma Qlt_bool_iff (a b : Q) : Qlt_bool a b = true <-> a < b.
Proof.
  unfold Qlt_bool. rewrite negb_true_iff. split.
  - intros H. apply Qnot_le_lt. intros Hle.
    apply Qle_bool_iff in Hle. congruence.
  - intros H. destruct (Qle_bool b a) eqn:E; [|reflexivity].
    apply Qle_bool_iff in E. exfalso. apply (Qlt_not_le _ _ H E).
Qed.

Lemma Qlt_bool_false (a b : Q) : Qlt_bool a b = false <-> ~ a < b.
Proof.
  rewrite <- Qlt_bool_iff. destruct (Qlt_bool a b); split; congruence.
Qed.

(** ** Authorization of tile and KML requests *)

Lemma tile_flag_true (res : AuthResult) (layer_name : string) :
  py_eq_True (tile_flag res layer_name) = true <->
  exists entry v, auth_layers res !! layer_name = Some entry /\
                  entry !! "tile" = Some v /\ py_eq_True v = true.
Proof.
  unfold tile_flag. split.
  - destruct (auth_layers res !! layer_name) as [entry|] eqn:E; simpl.
    + destruct (entry !! "tile") as [v|] eqn:F; simpl.
      * intros H. exists entry, v. auto.
      * discriminate.
    + rewrite lookup_empty. simpl. discriminate.
  - intros (entry & v & -> & Hv & H). simpl. rewrite Hv. exact H.
Qed.

(** C6: with an authorization callback in the environment, the request
    proceeds when the answer is "full", proceeds when the answer is
    "partial" and the layer's entry has a [tile] flag equal to [True], and
    in every other case fails with [RequestError('forbidden', status=403)]. *)
Theorem authorize_tile_layer_decision
  (layer_name : string) (env : Environ)
  (cb : string -> list string -> AuthResult) :
  mapproxy_authorize env = Some cb ->
  let res := cb "kml" [layer_name] in
  let tile_allowed :=
    exists entry v, auth_layers res !! layer_name = Some entry /\
                    entry !! "tile" = Some v /\ py_eq_True v = true in
  (authorized res = "full" -> authorize_tile_layer layer_name env = Ok tt) /\
  (authorized res = "partial" ->
     (authorize_tile_layer layer_name env = Ok tt <-> tile_allowed)) /\
  (~ (authorized res = "full" \/ (authorized res = "partial" /\ tile_allowed)) ->
     authorize_tile_layer layer_name env
     = Raise (RequestError "forbidden" (Some 403%Z))).
Proof.
  intros Hcb res tile_allowed.
  unfold authorize_tile_layer. rewrite Hcb. fold res.
  destruct (String.eqb_spec (authorized res) "full") as [Hf|Hf].
  - split; [reflexivity|]. split.
    + intros Hp. rewrite Hf in Hp. discriminate.
    + intros Hn. exfalso. apply Hn. left. exact Hf.
  - split; [intros H; contradiction|].
    destruct (String.eqb_spec (authorized res) "partial") as [Hp|Hp]; simpl.
    + destruct (py_eq_True (tile_flag res layer_name)) eqn:Ht.
      * apply tile_flag_true in Ht. split.
        -- intros _. split; [intros _; exact Ht | reflexivity].
        -- intros Hn. exfalso. apply Hn. right. split; assumption.
      * assert (Hno : ~ tile_allowed).
        { intros Ha. apply tile_flag_true in Ha. congruence. }
        split.
        -- intros _. split; [discriminate | intros Ha; contradiction].
        -- reflexivity.
    + split; [intros H; contradiction | reflexivity].
Qed.

Lemma authorize_tile_layer_decision_witness :
  authorize_tile_layer "osm" (samples.grant "full" (PyBool false)) = Ok tt /\
  authorize_tile_layer "osm" (samples.grant "partial" (PyBool true)) = Ok tt /\
  authorize_tile_layer "osm" (samples.grant "partial" (PyBool false))
  = Raise (RequestError "forbidden" (Some 403%Z)) /\
  authorize_tile_layer "osm" (samples.grant "none" (PyBool true))
  = Raise (RequestError "forbidden" (Some 403%Z)).
Proof.
  split; [|split; [|split]].
  - destruct (authorize_tile_layer_decision "osm"
                (samples.grant "full" (PyBool false)) _ eq_refl) as (H & _).
    apply H. reflexivity.
  - destruct (authorize_tile_layer_decision "osm"
                (samples.grant "partial" (PyBool true)) _ eq_refl)
      as (_ & H & _).
    apply H; [reflexivity|].
    exists {[ "tile" := PyBool true ]}, (PyBool true).
    split; [|split]; reflexivity.
  - destruct (authorize_tile_layer_decision "osm"
                (samples.grant "partial" (PyBool false)) _ eq_refl)
      as (_ & _ & H).
    apply H.
    intros [E|[_ (entry & v & He & Hv & Ht)]]; [discriminate E|].
    vm_compute in He. injection He as <-.
    vm_compute in Hv. injection Hv as <-. discriminate Ht.
  - destruct (authorize_tile_layer_decision "osm"
                (samples.grant "none" (PyBool true)) _ eq_refl)
      as (_ & _ & H).
    apply H. intros [E|[E _]]; discriminate E.
Defined.

(** C10: without a ['mapproxy.authorize'] entry in the environment
    [authorize_tile_layer] returns normally, so [map] and [kml] go on as if
    there were no check; whenever it raises, a callback was present and
    the error is the 403 one. *)
Theorem authorize_tile_layer_without_callback
  (self : KMLServer) (req : KMLRequest) (layer_name : string) :
  let env := environ (http req) in
  (mapproxy_authorize env = None ->
     authorize_tile_layer layer_name env = Ok tt /\
     kml.map self req
     = match layer self req with
       | Ok l => kml.render l req
       | Raise e => Raise e
       end /\
     kml self req <> Raise forbidden) /\
  (forall e, authorize_tile_layer layer_name env = Raise e ->
     e = forbidden /\ exists cb, mapproxy_authorize env = Some cb).
Proof.
  intros env. split.
  - intros Hnone.
    assert (Hall : forall n, authorize_tile_layer n env = Ok tt).
    { intros n. unfold authorize_tile_layer. rewrite Hnone. reflexivity. }
    split; [apply Hall|]. split.
    + unfold kml.map. destruct (layer self req) as [l|e]; [|reflexivity].
      fold env. rewrite Hall. reflexivity.
    + unfold kml, layer.
      repeat match goal with
             | |- context [layers self !! ?k] =>
               destruct (layers self !! k)
             end;
      try discriminate; fold env; rewrite Hall;
      unfold _tile_wgs_bbox, _get_subtiles;
      (destruct (_tile_bbox _ _); [|discriminate]);
      (destruct (get_affected_level_tiles _ _ _) as [[? ?] ?]); discriminate.
  - intros e. unfold authorize_tile_layer.
    destruct (mapproxy_authorize env) as [cb|]; [|discriminate].
    repeat match goal with
           | |- context [if ?b then _ else _] => destruct b
           end; try discriminate.
    intros [= <-]. split; [reflexivity | eauto].
Qed.

Lemma authorize_tile_layer_without_callback_witness :
  authorize_tile_layer "osm" samples.open_env = Ok tt /\
  kml samples.server (samples.request_for (0, 0, 0)%Z samples.open_env)
  <> Raise forbidden.
Proof.
  destruct (authorize_tile_layer_without_callback samples.server
              (samples.request_for (0, 0, 0)%Z samples.open_env) "osm")
    as [H _].
  destruct (H eq_refl) as (H1 & _ & H3). split; [exact H1 | exact H3].
Defined.

(** ** Pole clamping *)

(** C2: for a grid in EPSG:900913 the bottom latitude becomes exactly -90
    when the source box's bottom edge is less than 0.1 away from
    -20037508.342789244, the top latitude exactly 90 when the top edge is
    less than 0.1 away from 20037508.342789244, each edge on its own; an
    edge outside the tolerance keeps its transformed value, and so does the
    whole box when the grid has another reference. *)
Theorem tile_bbox_to_wgs_pole_clamp (src_bbox : BBox) (g : Grid) :
  let t := transform_bbox_to (srs g) 4326%Z src_bbox 4%nat in
  let r := _tile_bbox_to_wgs src_bbox g in
  (srs_code (srs g) = 900913%Z ->
     minx r = minx t /\ maxx r = maxx t /\
     (Qabs (miny src_bbox - - 20037508.342789244) < 0.1 -> miny r = -90) /\
     (~ Qabs (miny src_bbox - - 20037508.342789244) < 0.1 ->
        miny r = miny t) /\
     (Qabs (maxy src_bbox - 20037508.342789244) < 0.1 -> maxy r = 90) /\
     (~ Qabs (maxy src_bbox - 20037508.342789244) < 0.1 ->
        maxy r = maxy t)) /\
  (srs_code (srs g) <> 900913%Z -> r = t).
Proof.
  intros t r. subst r. unfold _tile_bbox_to_wgs, srs_eq. fold t.
  change 20037508.342789244 with max_extent.
  change 0.1 with tolerance.
  split.
  - intros ->. rewrite Z.eqb_refl.
    destruct (Qlt_bool (Qabs (miny src_bbox - - max_extent)) tolerance) eqn:Eb;
    destruct (Qlt_bool (Qabs (maxy src_bbox - max_extent)) tolerance) eqn:Et;
    simpl;
    repeat match goal with
           | H : Qlt_bool _ _ = true |- _ => apply Qlt_bool_iff in H
           | H : Qlt_bool _ _ = false |- _ => apply Qlt_bool_false in H
           end;
    repeat split; intros; try reflexivity; contradiction.
  - intros Hne. apply Z.eqb_neq in Hne. rewrite Hne. reflexivity.
Qed.

Lemma tile_bbox_to_wgs_pole_clamp_witness :
  miny (_tile_bbox_to_wgs samples.world_box (to_grid samples.mercator)) = -90 /\
  maxy (_tile_bbox_to_wgs samples.world_box (to_grid samples.mercator)) = 90.
Proof.
  destruct (tile_bbox_to_wgs_pole_clamp samples.world_box
              (to_grid samples.mercator)) as [H _].
  destruct (H eq_refl) as (_ & _ & Hb & _ & Ht & _).
  split; [apply Hb | apply Ht]; reflexivity.
Defined.

(** ** Tiles outside the grid *)

Lemma get_subtiles_ok (tile : TileCoord) (l : Layer) (b : BBox) :
  _tile_bbox tile (grid l) = Some b ->
  exists tile_grid,
    _get_subtiles tile l
    = Ok (tile_grid,
          subtiles_loop (grid l) b (candidates tile b l) []).
Proof.
  intros Hb. unfold _get_subtiles, candidates. rewrite Hb.
  destruct (get_affected_level_tiles _ _ _) as [[b' tg] tiles].
  exists tg. reflexivity.
Qed.

(** C3, as the code has it: a request for a tile that maps to no cell of
    the grid does not yield a document, and once the layer is found and the
    request is authorized it fails with the [RequestError] of line 102;
    the subdivision is not reached. *)
Theorem kml_tile_outside_grid
  (self : KMLServer) (req : KMLRequest) (l : Layer) :
  layer self req = Ok l ->
  authorize_tile_layer (name l) (environ (http req)) = Ok tt ->
  _tile_bbox (req_tile req) (grid l) = None ->
  kml self req
  = Raise (RequestError
      "The requested tile is outside the bounding box of the tile map." None)
  /\ ~ empty_subdivision self req.
Proof.
  intros Hl Ha Hb.
  assert (E : kml self req = Raise (RequestError outside_msg None)).
  { unfold kml. rewrite Hl, Ha. unfold _tile_wgs_bbox. rewrite Hb.
    reflexivity. }
  split; [exact E|].
  intros (doc & Hdoc & _). rewrite E in Hdoc. discriminate.
Qed.

Lemma kml_tile_outside_grid_witness :
  kml samples.server (samples.request_for (5, 5, 0)%Z samples.open_env)
  = Raise (RequestError
      "The requested tile is outside the bounding box of the tile map." None).
Proof.
  apply (kml_tile_outside_grid samples.server
           (samples.request_for (5, 5, 0)%Z samples.open_env) samples.osm);
    reflexivity.
Defined.

Lemma kml_tile_outside_grid_counterexample :
  _tile_bbox (5, 5, 0)%Z (grid samples.osm) = None /\
  ~ empty_subdivision samples.server
      (samples.request_for (5, 5, 0)%Z samples.open_env).
Proof.
  split; [reflexivity|].
  intros (doc & Hdoc & _). vm_compute in Hdoc. discriminate Hdoc.
Qed.
(** ** Subdivision *)

(** Which coordinates the loop of [_get_subtiles] adds. *)
Lemma subtiles_loop_coords (g : Grid) (b : BBox)
  (tiles : list (option TileCoord)) (acc : list SubTile) (c : TileCoord) :
  In c (List.map coord (subtiles_loop g b tiles acc)) <->
  In c (List.map coord acc) \/
  (In (Some c) tiles /\
   exists sb, _tile_bbox c g = Some sb /\ lower_left_kept sb b = true).
Proof.
  revert acc. induction tiles as [|[c'|] rest IH]; intros acc; simpl.
  - tauto.
  - destruct (_tile_bbox c' g) as [sb'|] eqn:Eb.
    + destruct (lower_left_kept sb' b) eqn:Ek; rewrite IH.
      * rewrite List.map_app, List.in_app_iff. simpl. split.
        -- intros [[H|[<-|[]]]|(H & sb & H1 & H2)]; eauto 6.
        -- intros [H|[[[= <-]|H] (sb & H1 & H2)]]; eauto 7.
      * split.
        -- intros [H|(H & sb & H1 & H2)]; eauto 6.
        -- intros [H|[[[= <-]|H] (sb & H1 & H2)]]; eauto 6.
           congruence.
    + rewrite IH. split.
      * intros [H|(H & sb & H1 & H2)]; eauto 6.
      * intros [H|[[[= <-]|H] (sb & H1 & H2)]]; eauto 6.
        congruence.
  - rewrite IH. split.
    + intros [H|(H & sb & H1 & H2)]; eauto 6.
    + intros [H|[[[=]|H] (sb & H1 & H2)]]; eauto 6.
Qed.

Lemma lower_left_kept_iff (sb b : BBox) :
  lower_left_kept sb b = true <-> minx b <= minx sb /\ miny b <= miny sb.
Proof.
  unfold lower_left_kept. rewrite andb_true_iff, !Qle_bool_iff. tauto.
Qed.

Lemma corner_in_bboxb_iff (sb b : BBox) :
  corner_in_bboxb sb b = true <-> corner_in_bbox sb b.
Proof.
  unfold corner_in_bboxb, corner_in_bbox.
  rewrite !andb_true_iff, !Qle_bool_iff. tauto.
Qed.

(** ** The pyramid's geometry *)

Section pyramid_facts.

Variable p : Pyramid.
Hypothesis Hw : 0 < width p.
Hypothesis Hh : 0 < height p.

Lemma cells_pos (z : Z) : (0 <= z)%Z -> (0 < cells z)%Z.
Proof. intros Hz. unfold cells. apply Z.pow_pos_nonneg; lia. Qed.

Lemma cells_add (z k : Z) :
  (0 <= z)%Z -> (0 <= k)%Z -> cells (z + k) = (cells z * cells k)%Z.
Proof. intros Hz Hk. unfold cells. apply Z.pow_add_r; assumption. Qed.

Lemma inject_Z_pos (n : Z) : (0 < n)%Z -> 0 < inject_Z n.
Proof. intros H. change 0 with (inject_Z 0). rewrite <- Zlt_Qlt. exact H. Qed.

Lemma cell_pos (extent : Q) (z : Z) :
  0 < extent -> (0 <= z)%Z -> 0 < extent / inject_Z (cells z).
Proof.
  intros He Hz. apply Qlt_shift_div_l.
  - apply inject_Z_pos, cells_pos, Hz.
  - lra.
Qed.

Lemma cell_scale (extent : Q) (z k : Z) :
  (0 <= z)%Z -> (0 <= k)%Z ->
  extent / inject_Z (cells z)
  == inject_Z (cells k) * (extent / inject_Z (cells (z + k))).
Proof.
  intros Hz Hk. rewrite cells_add by assumption. rewrite inject_Z_mult.
  pose proof (inject_Z_pos _ (cells_pos z Hz)).
  pose proof (inject_Z_pos _ (cells_pos k Hk)).
  field. split; [lra|].
  intros E. apply Qmult_integral in E. destruct E; lra.
Qed.

(** Cells of size [c] meeting an interval that starts and ends on cell
    borders. *)
Lemma axis_range_aligned (o c lo hi : Q) (a b n : Z) :
  0 < c -> lo == o + inject_Z a * c -> hi == o + inject_Z b * c ->
  axis_range o c lo hi n = (Z.max 0 a, Z.min (n - 1) (b - 1)).
Proof.
  intros Hc Hlo Hhi. unfold axis_range.
  assert (E1 : (lo - o) / c == inject_Z a) by (rewrite Hlo; field; lra).
  assert (E2 : (hi - o) / c == inject_Z b) by (rewrite Hhi; field; lra).
  rewrite (Qfloor_comp _ _ E1), (Qceiling_comp _ _ E2).
  rewrite Qfloor_Z, Qceiling_Z. reflexivity.
Qed.

Lemma In_span (v a b : Z) : In v (span (a, b)) <-> (a <= v <= b)%Z.
Proof.
  unfold span. simpl. rewrite <- list_elem_of_In, elem_of_seqZ. lia.
Qed.

(** Comparing a border of the level [z + k] with a border of level [z]. *)
Lemma border_le (extent o : Q) (z k a b : Z) :
  0 < extent -> (0 <= z)%Z -> (0 <= k)%Z ->
  (o + inject_Z b * (extent / inject_Z (cells z))
   <= o + inject_Z a * (extent / inject_Z (cells (z + k)))
   <-> (b * cells k <= a)%Z).
Proof.
  intros He Hz Hk.
  rewrite (cell_scale extent z k Hz Hk).
  pose proof (cell_pos extent (z + k) He ltac:(lia)) as Hc.
  set (c := extent / inject_Z (cells (z + k))) in *.
  rewrite Zle_Qle, inject_Z_mult.
  split; intros H.
  - apply (Qmult_le_r _ _ c Hc). lra.
  - apply (Qmult_le_r _ _ c Hc) in H. lra.
Qed.


Lemma border_ge (extent o : Q) (z k a b : Z) :
  0 < extent -> (0 <= z)%Z -> (0 <= k)%Z ->
  (o + inject_Z a * (extent / inject_Z (cells (z + k)))
   <= o + inject_Z b * (extent / inject_Z (cells z))
   <-> (a <= b * cells k)%Z).
Proof.
  intros He Hz Hk.
  rewrite (cell_scale extent z k Hz Hk).
  pose proof (cell_pos extent (z + k) He ltac:(lia)) as Hc.
  set (c := extent / inject_Z (cells (z + k))) in *.
  rewrite Zle_Qle, inject_Z_mult.
  split; intros H.
  - apply (Qmult_le_r _ _ c Hc). lra.
  - apply (Qmult_le_r _ _ c Hc) in H. lra.
Qed.

Lemma pyr_internal_valid (t : TileCoord) :
  valid_tile p t -> pyr_internal_tile_coord p t = Some t.
Proof.
  destruct t as [[x y] z]. intros (Hz & Hx & Hy).
  unfold pyr_internal_tile_coord, valid_level.
  repeat match goal with
         | |- context [(?a <=? ?b)%Z] =>
           destruct (Z.leb_spec a b); [|lia]
         | |- context [(?a <? ?b)%Z] =>
           destruct (Z.ltb_spec a b); [|lia]
         end.
  reflexivity.
Qed.

Lemma pyr_internal_some (t t' : TileCoord) :
  pyr_internal_tile_coord p t = Some t' -> t' = t /\ valid_tile p t.
Proof.
  destruct t as [[x y] z]. unfold pyr_internal_tile_coord, valid_level.
  destruct (_ && _) eqn:E; [|discriminate].
  intros [= <-]. split; [reflexivity|].
  repeat (apply andb_prop in E; destruct E as [E ?]).
  simpl. lia.
Qed.

Lemma tile_bbox_valid (t : TileCoord) :
  valid_tile p t -> _tile_bbox t (to_grid p) = Some (pyr_tile_bbox p t).
Proof.
  intros Hv. unfold _tile_bbox. simpl.
  rewrite (pyr_internal_valid t Hv). reflexivity.
Qed.

Lemma below_valid (t c : TileCoord) (k : Z) :
  valid_tile p t -> (0 <= k)%Z -> below p t k c -> valid_tile p c.
Proof.
  destruct t as [[x y] z]. intros (Hz & Hx & Hy) Hk.
  intros (Hlvl & x' & y' & -> & Hx' & Hy'). simpl.
  rewrite cells_add by lia.
  pose proof (cells_pos k Hk). pose proof (cells_pos z ltac:(lia)).
  repeat split; try lia; nia.
Qed.

(** What the grid proposes, [k] levels below a tile, for that tile's box. *)
Lemma affected_tiles_below (t c : TileCoord) (k : Z) :
  valid_tile p t -> (0 <= k)%Z ->
  In (Some c)
    (snd (pyr_get_affected_level_tiles p (pyr_tile_bbox p t) (snd t + k)%Z))
  <-> below p t k c.
Proof.
  destruct t as [[x y] z]. intros (Hz & Hx & Hy) Hk. simpl snd.
  unfold pyr_get_affected_level_tiles, valid_level, below.
  pose proof (cells_pos k Hk) as Hck.
  pose proof (cells_pos z ltac:(lia)) as Hcz.
  destruct (Z.leb_spec 0 (z + k)); [|lia].
  destruct (Z.ltb_spec (z + k) (num_levels p)); simpl andb; cbv iota.
  2: { simpl. split; [tauto | intros [? _]; lia]. }
  assert (Hc : forall extent, 0 < extent ->
             0 < extent / inject_Z (cells (z + k))).
  { intros e He. apply cell_pos; [exact He | lia]. }
  rewrite (axis_range_aligned (origin_x p) (cell_w p (z + k)) _ _
             (x * cells k) ((x + 1) * cells k)); simpl minx; simpl maxx;
    [ | apply Hc, Hw
      | unfold cell_w; rewrite (cell_scale (width p) z k), inject_Z_mult
          by lia; ring
      | unfold cell_w; rewrite (cell_scale (width p) z k), inject_Z_mult
          by lia; ring ].
  rewrite (axis_range_aligned (origin_y p) (cell_h p (z + k)) _ _
             (y * cells k) ((y + 1) * cells k)); simpl miny; simpl maxy;
    [ | apply Hc, Hh
      | unfold cell_h; rewrite (cell_scale (height p) z k), inject_Z_mult
          by lia; ring
      | unfold cell_h; rewrite (cell_scale (height p) z k), inject_Z_mult
          by lia; ring ].
  simpl snd. rewrite <- list_elem_of_In, list_elem_of_bind.
  rewrite cells_add by lia.
  split.
  - intros (y' & Hin & Hy'). apply list_elem_of_bind in Hin.
    destruct Hin as (x' & Hin & Hx').
    apply list_elem_of_singleton in Hin. injection Hin as ->.
    apply list_elem_of_In, In_span in Hx'.
    apply list_elem_of_In, In_span in Hy'.
    split; [assumption|]. exists x', y'.
    split; [reflexivity|]. lia.
  - intros (_ & x' & y' & -> & Hx' & Hy').
    exists y'. split.
    + apply list_elem_of_bind. exists x'. split.
      * apply list_elem_of_singleton. reflexivity.
      * apply list_elem_of_In, In_span. nia.
    + apply list_elem_of_In, In_span. nia.
Qed.


(** A tile below [t] starts at or after the lower-left corner of [t] and
    before its upper-right corner. *)
Lemma below_corner (t c : TileCoord) (k : Z) :
  valid_tile p t -> (0 <= k)%Z -> below p t k c ->
  corner_in_bbox (pyr_tile_bbox p c) (pyr_tile_bbox p t).
Proof.
  destruct t as [[x y] z]. intros (Hz & Hx & Hy) Hk.
  intros (_ & x' & y' & -> & Hx' & Hy').
  unfold corner_in_bbox, pyr_tile_bbox, cell_w, cell_h. simpl.
  rewrite !border_le, !border_ge by (assumption || lia).
  lia.
Qed.

(** The coordinates [_get_subtiles] yields for a tile of the pyramid are
    its (up to) four children. *)
Lemma get_subtiles_children (n : string) (t : TileCoord) :
  valid_tile p t ->
  exists tile_grid subs,
    _get_subtiles t (pyr_layer p n) = Ok (tile_grid, subs) /\
    forall c, In c (List.map coord subs) <-> below p t 1 c.
Proof.
  intros Hv.
  destruct (get_subtiles_ok t (pyr_layer p n) _ (tile_bbox_valid t Hv))
    as (tg & E).
  exists tg, (subtiles_loop (to_grid p) (pyr_tile_bbox p t)
                (candidates t (pyr_tile_bbox p t) (pyr_layer p n)) []).
  split; [exact E|].
  intros c. rewrite subtiles_loop_coords. simpl In at 1.
  unfold candidates.
  change (get_affected_level_tiles (grid (pyr_layer p n)))
    with (pyr_get_affected_level_tiles p).
  unfold level. rewrite (affected_tiles_below t c 1 Hv) by lia.
  split.
  - intros [[]|[H _]]. exact H.
  - intros H. right. split; [exact H|].
    exists (pyr_tile_bbox p c). split.
    + apply tile_bbox_valid. apply (below_valid t c 1); [assumption|lia|assumption].
    + apply lower_left_kept_iff.
      destruct (below_corner t c 1 Hv ltac:(lia) H) as [[? _] [? _]].
      split; assumption.
Qed.

Lemma half_range (x x' : Z) :
  (x * 4 <= x' < (x + 1) * 4)%Z ->
  (x * 2 <= x' / 2 < (x + 1) * 2)%Z /\
  (x' / 2 * 2 <= x' < (x' / 2 + 1) * 2)%Z.
Proof.
  intros H.
  pose proof (Z.div_mod x' 2 ltac:(lia)).
  pose proof (Z.mod_pos_bound x' 2 ltac:(lia)).
  lia.
Qed.

(** Two levels down is one level down, twice. *)
Lemma below_twice (t c : TileCoord) :
  valid_tile p t ->
  below p t 2 c <-> exists m, below p t 1 m /\ below p m 1 c.
Proof.
  destruct t as [[x y] z]. intros (Hz & Hx & Hy). unfold below.
  change (cells 1) with 2%Z. change (cells 2) with 4%Z. split.
  - intros (Hl & x' & y' & -> & Hx' & Hy').
    apply half_range in Hx'. apply half_range in Hy'.
    exists ((x' / 2)%Z, (y' / 2)%Z, (z + 1)%Z). split.
    + split; [lia|]. eexists _, _. split; [reflexivity|]. lia.
    + split; [lia|]. exists x', y'. split; [f_equal; lia|]. lia.
  - intros ([[mx my] mz] & (Hl1 & x1 & y1 & [= -> -> ->] & Hx1 & Hy1) & H2).
    destruct H2 as (Hl2 & x' & y' & -> & Hx' & Hy').
    split; [lia|]. exists x', y'. split; [f_equal; lia|]. lia.
Qed.

End pyramid_facts.

(** C1: a candidate child with a valid box (a tile of the next level whose
    box overlaps the parent's) is kept by [_get_subtiles] exactly when its
    lower-left corner lies in the parent's box, borders included. *)
Theorem get_subtiles_keeps_lower_left
  (tile : TileCoord) (l : Layer) (b : BBox) (c : TileCoord) (sb : BBox) :
  _tile_bbox tile (grid l) = Some b ->
  In (Some c) (candidates tile b l) ->
  _tile_bbox c (grid l) = Some sb ->
  bbox_overlaps sb b ->
  exists tile_grid subs,
    _get_subtiles tile l = Ok (tile_grid, subs) /\
    (In c (List.map coord subs) <->
     (minx b <= minx sb /\ minx sb <= maxx b) /\
     (miny b <= miny sb /\ miny sb <= maxy b)).
Proof.
  intros Hb Hc Hsb [[Hx _] [Hy _]].
  destruct (get_subtiles_ok tile l b Hb) as (tg & E).
  eexists _, _. split; [exact E|].
  rewrite subtiles_loop_coords. simpl In at 1. split.
  - intros [[]|(_ & sb' & Hsb' & Hk)].
    assert (sb' = sb) as -> by congruence.
    apply lower_left_kept_iff in Hk. destruct Hk.
    repeat split; try assumption; apply Qlt_le_weak; assumption.
  - intros [[? _] [? _]]. right. split; [exact Hc|].
    exists sb. split; [exact Hsb|].
    apply lower_left_kept_iff. split; assumption.
Qed.

Lemma get_subtiles_keeps_lower_left_witness :
  let b := pyr_tile_bbox samples.mercator (0, 0, 0)%Z in
  let sb := pyr_tile_bbox samples.mercator (1, 0, 1)%Z in
  exists tile_grid subs,
    _get_subtiles (0, 0, 0)%Z samples.osm = Ok (tile_grid, subs) /\
    (In (1, 0, 1)%Z (List.map coord subs) <->
     (minx b <= minx sb /\ minx sb <= maxx b) /\
     (miny b <= miny sb /\ miny sb <= maxy b)).
Proof.
  apply (get_subtiles_keeps_lower_left (0, 0, 0)%Z samples.osm
           (pyr_tile_bbox samples.mercator (0, 0, 0)%Z) (1, 0, 1)%Z
           (pyr_tile_bbox samples.mercator (1, 0, 1)%Z)).
  - reflexivity.
  - vm_compute. right. left. reflexivity.
  - reflexivity.
  - vm_compute. repeat split.
Defined.

(** ** Subdivision over a grid that lists more than the children *)

Section listing_facts.

Variable p : Pyramid.
Hypothesis Hw : 0 < width p.
Hypothesis Hh : 0 < height p.
Variable affected : BBox -> Z -> BBox * (Z * Z) * list (option TileCoord).
Hypothesis Hlist : lists_candidates p affected.

Lemma tile_bbox_listing (t : TileCoord) :
  valid_tile p t ->
  _tile_bbox t (grid_listing p affected) = Some (pyr_tile_bbox p t).
Proof. intros Hv. apply (tile_bbox_valid p t Hv). Qed.

Lemma tile_bbox_listing_some (t : TileCoord) (b : BBox) :
  _tile_bbox t (grid_listing p affected) = Some b ->
  valid_tile p t /\ b = pyr_tile_bbox p t.
Proof.
  unfold _tile_bbox. simpl.
  destruct (pyr_internal_tile_coord p t) as [t'|] eqn:E; [|discriminate].
  destruct (pyr_internal_some p t t' E) as [-> Hv].
  intros [= <-]. split; [exact Hv | reflexivity].
Qed.

(** Among the tiles of the level [k] below [t], those overlapping the box
    of [t] are the ones inside it. *)
Lemma overlap_below (t c : TileCoord) (k : Z) :
  valid_tile p t -> (0 <= k)%Z -> valid_tile p c ->
  level c = (level t + k)%Z ->
  bbox_overlaps (pyr_tile_bbox p c) (pyr_tile_bbox p t) <-> below p t k c.
Proof.
  destruct t as [[x y] z], c as [[x' y'] z'].
  intros (Hz & Hx & Hy) Hk (Hz' & Hx' & Hy') Hl.
  unfold level in Hl. simpl in Hl. subst z'.
  assert (Hlt : forall a b : Q, a < b <-> ~ b <= a).
  { intros a b. split; [apply Qlt_not_le | apply Qnot_le_lt]. }
  unfold bbox_overlaps, below, pyr_tile_bbox, cell_w, cell_h. simpl.
  rewrite !Hlt, !border_le, !border_ge by (assumption || lia).
  split.
  - intros Hov. split; [lia|]. exists x', y'. split; [reflexivity | lia].
  - intros (_ & a & b & [= <- <-] & Ha & Hb). lia.
Qed.

(** On such a grid too, [_get_subtiles] yields the children of a tile and
    nothing else: the test of line 132 takes out whatever the grid lists
    besides. *)
Lemma listing_children (n : string) (t : TileCoord) :
  valid_tile p t ->
  exists tile_grid subs,
    _get_subtiles t (listing_layer p affected n) = Ok (tile_grid, subs) /\
    forall c, In c (List.map coord subs) <-> below p t 1 c.
Proof.
  intros Hv.
  destruct (get_subtiles_ok t (listing_layer p affected n) _
              (tile_bbox_listing t Hv)) as (tg & E).
  eexists _, _. split; [exact E|].
  intros c. rewrite subtiles_loop_coords. simpl In at 1.
  unfold candidates.
  change (grid (listing_layer p affected n)) with (grid_listing p affected).
  change (get_affected_level_tiles (grid_listing p affected)) with affected.
  destruct (Hlist t 1%Z c Hv ltac:(lia)) as [Hcomplete Hsound].
  split.
  - intros [[]|(Hin & sb & Hsb & Hk)].
    apply tile_bbox_listing_some in Hsb. destruct Hsb as [Hvc ->].
    apply lower_left_kept_iff in Hk. destruct Hk as [Hkx Hky].
    destruct (Hsound Hin) as [Hl Hov].
    apply (overlap_below t c 1 Hv ltac:(lia) Hvc Hl).
    apply Hov; assumption.
  - intros Hb. right.
    assert (Hvc : valid_tile p c)
      by (apply (below_valid p t c 1); [assumption|lia|assumption]).
    assert (Hl : level c = (level t + 1)%Z).
    { destruct t as [[x y] z]. destruct Hb as (_ & a & b & -> & _).
      reflexivity. }
    split.
    + apply Hcomplete; [exact Hvc | exact Hl|].
      apply (overlap_below t c 1 Hv ltac:(lia) Hvc Hl), Hb.
    + exists (pyr_tile_bbox p c). split; [apply tile_bbox_listing, Hvc|].
      apply lower_left_kept_iff.
      destruct (below_corner p Hw Hh t c 1 Hv ltac:(lia) Hb) as [[? _] [? _]].
      split; assumption.
Qed.

Lemma listing_level2 (n : string) (t : TileCoord) :
  valid_tile p t ->
  exists direct,
    subdivide_to_level2 t (listing_layer p affected n) = Ok direct /\
    forall c, In c direct <-> below p t 2 c.
Proof.
  intros Hv. unfold subdivide_to_level2.
  change (grid (listing_layer p affected n)) with (grid_listing p affected).
  rewrite (tile_bbox_listing t Hv). eexists. split; [reflexivity|].
  intros c. rewrite <- list_elem_of_In, list_elem_of_bind.
  change (get_affected_level_tiles (grid_listing p affected)) with affected.
  split.
  - intros ([c'|] & Hc & Hin); [|inversion Hc].
    destruct (_tile_bbox c' (grid_listing p affected)) as [sb|] eqn:Esb;
      [|inversion Hc].
    apply tile_bbox_listing_some in Esb. destruct Esb as [Hvc ->].
    destruct (corner_in_bboxb _ _) eqn:Ec; [|inversion Hc].
    apply list_elem_of_singleton in Hc. subst c'.
    apply corner_in_bboxb_iff in Ec. destruct Ec as [[Hkx _] [Hky _]].
    apply list_elem_of_In in Hin.
    destruct (Hlist t 2%Z c Hv ltac:(lia)) as [_ Hsound].
    destruct (Hsound Hin) as [Hl Hov].
    apply (overlap_below t c 2 Hv ltac:(lia) Hvc Hl).
    apply Hov; assumption.
  - intros Hb.
    assert (Hvc : valid_tile p c)
      by (apply (below_valid p t c 2); [assumption|lia|assumption]).
    assert (Hl : level c = (level t + 2)%Z).
    { destruct t as [[x y] z]. destruct Hb as (_ & a & b & -> & _).
      reflexivity. }
    exists (Some c). split.
    + rewrite (tile_bbox_listing c Hvc).
      pose proof (below_corner p Hw Hh t c 2 Hv ltac:(lia) Hb) as Hc.
      apply corner_in_bboxb_iff in Hc. rewrite Hc.
      apply list_elem_of_singleton. reflexivity.
    + apply list_elem_of_In.
      destruct (Hlist t 2%Z c Hv ltac:(lia)) as [Hcomplete _].
      apply Hcomplete; [exact Hvc | exact Hl|].
      apply (overlap_below t c 2 Hv ltac:(lia) Hvc Hl), Hb.
Qed.

Lemma listing_each (n : string) (children : list SubTile) :
  Forall (fun ch => valid_tile p (coord ch)) children ->
  exists twice,
    subdivide_each (listing_layer p affected n) children = Ok twice /\
    forall c, In c twice <->
              exists ch, In ch children /\ below p (coord ch) 1 c.
Proof.
  induction 1 as [|ch rest Hch Hrest IH]; simpl.
  - exists []. split; [reflexivity|]. intros c. split; [intros []|].
    intros (ch & [] & _).
  - destruct (listing_children n (coord ch) Hch) as (tg & subs & E & Hs).
    destruct IH as (more & Em & Hm).
    rewrite E, Em. eexists. split; [reflexivity|].
    intros c. rewrite List.in_app_iff, Hs, Hm. split.
    + intros [H|(ch' & Hin & H)]; eauto.
    + intros (ch' & [<-|Hin] & H); eauto.
Qed.

Lemma listing_links_to (n : string) (t c : TileCoord) :
  links_to (listing_layer p affected n) t c <-> valid_tile p t /\ below p t 1 c.
Proof.
  split.
  - intros (tg & subs & E & Hin).
    assert (Hv : valid_tile p t).
    { unfold _get_subtiles in E.
      change (grid (listing_layer p affected n))
        with (grid_listing p affected) in E.
      destruct (_tile_bbox t (grid_listing p affected)) as [b|] eqn:Eb.
      - apply (tile_bbox_listing_some t b Eb).
      - simpl in E. discriminate E. }
    split; [exact Hv|].
    destruct (listing_children n t Hv) as (tg' & subs' & E' & Hs).
    rewrite E in E'. injection E' as <- <-. apply Hs, Hin.
  - intros [Hv Hb].
    destruct (listing_children n t Hv) as (tg & subs & E & Hs).
    exists tg, subs. split; [exact E | apply Hs, Hb].
Qed.

End listing_facts.

(** The pyramid's own list and the list from the origin on both meet what
    the dedup rule asks. *)
Lemma pyramid_lists_candidates (p : Pyramid) :
  0 < width p -> 0 < height p ->
  lists_candidates p (pyr_get_affected_level_tiles p).
Proof.
  intros Hw Hh t k c Hv Hk b listed. subst b listed.
  unfold level.
  rewrite (affected_tiles_below p Hw Hh t c k Hv Hk). split.
  - intros Hvc Hl Hov. apply (overlap_below p Hw Hh t c k Hv Hk Hvc Hl), Hov.
  - intros Hb.
    assert (Hl : level c = (snd t + k)%Z).
    { destruct t as [[x y] z]. destruct Hb as (_ & a & b' & -> & _).
      reflexivity. }
    split; [exact Hl|]. intros Hvc _ _.
    apply (overlap_below p Hw Hh t c k Hv Hk Hvc Hl), Hb.
Qed.

Lemma tiles_up_to_listed (p : Pyramid) (t c : TileCoord) (k : Z) :
  0 < width p -> 0 < height p -> valid_tile p t -> (0 <= k)%Z ->
  In (Some c) (snd (pyr_tiles_up_to p (pyr_tile_bbox p t) (snd t + k)%Z))
  <-> (snd t + k < num_levels p)%Z /\
      exists x' y', c = (x', y', (snd t + k)%Z) /\
        (0 <= x' < (fst (fst t) + 1) * cells k)%Z /\
        (0 <= y' < (snd (fst t) + 1) * cells k)%Z.
Proof.
  destruct t as [[x y] z]. intros Hw Hh (Hz & Hx & Hy) Hk. simpl snd.
  simpl fst.
  unfold pyr_tiles_up_to, valid_level.
  pose proof (cells_pos k Hk) as Hck.
  pose proof (cells_pos z ltac:(lia)) as Hcz.
  destruct (Z.leb_spec 0 (z + k)); [|lia].
  destruct (Z.ltb_spec (z + k) (num_levels p)); simpl andb; cbv iota.
  2: { simpl. split; [tauto | intros [? _]; lia]. }
  assert (Hc : forall extent, 0 < extent ->
             0 < extent / inject_Z (cells (z + k))).
  { intros e He. apply cell_pos; [exact He | lia]. }
  rewrite (axis_range_aligned (origin_x p) (cell_w p (z + k)) _ _
             (x * cells k) ((x + 1) * cells k)); simpl minx; simpl maxx;
    [ | apply Hc, Hw
      | unfold cell_w; rewrite (cell_scale (width p) z k), inject_Z_mult
          by lia; ring
      | unfold cell_w; rewrite (cell_scale (width p) z k), inject_Z_mult
          by lia; ring ].
  rewrite (axis_range_aligned (origin_y p) (cell_h p (z + k)) _ _
             (y * cells k) ((y + 1) * cells k)); simpl miny; simpl maxy;
    [ | apply Hc, Hh
      | unfold cell_h; rewrite (cell_scale (height p) z k), inject_Z_mult
          by lia; ring
      | unfold cell_h; rewrite (cell_scale (height p) z k), inject_Z_mult
          by lia; ring ].
  simpl snd. rewrite <- list_elem_of_In, list_elem_of_bind.
  rewrite cells_add by lia.
  split.
  - intros (y' & Hin & Hy'). apply list_elem_of_bind in Hin.
    destruct Hin as (x' & Hin & Hx').
    apply list_elem_of_singleton in Hin. injection Hin as ->.
    apply list_elem_of_In, In_span in Hx'.
    apply list_elem_of_In, In_span in Hy'.
    split; [assumption|]. exists x', y'.
    split; [reflexivity|]. lia.
  - intros (_ & x' & y' & -> & Hx' & Hy').
    exists y'. split.
    + apply list_elem_of_bind. exists x'. split.
      * apply list_elem_of_singleton. reflexivity.
      * apply list_elem_of_In, In_span. nia.
    + apply list_elem_of_In, In_span. nia.
Qed.

Lemma tiles_up_to_lists_candidates (p : Pyramid) :
  0 < width p -> 0 < height p -> lists_candidates p (pyr_tiles_up_to p).
Proof.
  intros Hw Hh t k c Hv Hk b listed. subst b listed. unfold level.
  rewrite (tiles_up_to_listed p t c k Hw Hh Hv Hk). split.
  - intros Hvc Hl Hov.
    apply (overlap_below p Hw Hh t c k Hv Hk Hvc Hl) in Hov.
    destruct t as [[x y] z].
    destruct Hov as (Hlv & x' & y' & -> & Hx' & Hy').
    destruct Hv as (_ & Hx & Hy).
    pose proof (cells_pos k Hk).
    split; [exact Hlv|]. exists x', y'. split; [reflexivity|].
    simpl. split; nia.
  - intros (Hlv & x' & y' & -> & Hx' & Hy').
    split; [reflexivity|]. intros Hvc Hkx Hky.
    apply (overlap_below p Hw Hh t _ k Hv Hk Hvc eq_refl).
    destruct t as [[x y] z]. simpl in *.
    unfold cell_w, cell_h in Hkx, Hky.
    apply border_le in Hkx; [|assumption|lia|lia].
    apply border_le in Hky; [|assumption|lia|lia].
    split; [exact Hlv|]. exists x', y'. split; [reflexivity|]. lia.
Qed.

(** C8: over the pyramid, for every grid whose list of affected tiles
    contains the overlapping tiles and otherwise only tiles that start
    before the tile's lower-left corner, the tiles two levels down whose
    lower-left corner falls in a valid tile's box are the same set as the
    tiles obtained by subdividing the tile and then each child that was
    kept. *)
Theorem subdivision_composes
  (p : Pyramid)
  (affected : BBox -> Z -> BBox * (Z * Z) * list (option TileCoord))
  (n : string) (tile : TileCoord) (b : BBox) :
  0 < width p -> 0 < height p ->
  lists_candidates p affected ->
  _tile_bbox tile (grid (listing_layer p affected n)) = Some b ->
  exists direct twice,
    subdivide_to_level2 tile (listing_layer p affected n) = Ok direct /\
    subdivide_twice tile (listing_layer p affected n) = Ok twice /\
    forall c, In c direct <-> In c twice.
Proof.
  intros Hw Hh Hlist Hb.
  destruct (tile_bbox_listing_some p affected tile b Hb) as [Hv _].
  destruct (listing_level2 p Hw Hh affected Hlist n tile Hv)
    as (direct & Ed & Hd).
  destruct (listing_children p Hw Hh affected Hlist n tile Hv)
    as (tg & subs & Es & Hs).
  assert (Hsubs : Forall (fun ch => valid_tile p (coord ch)) subs).
  { apply List.Forall_forall. intros ch Hin.
    apply (below_valid p tile (coord ch) 1 Hv); [lia|].
    apply Hs, List.in_map, Hin. }
  destruct (listing_each p Hw Hh affected Hlist n subs Hsubs)
    as (twice & Et & Ht).
  exists direct, twice. split; [exact Ed|]. split.
  - unfold subdivide_twice. rewrite Es. exact Et.
  - intros c. rewrite Hd, Ht, (below_twice p tile c Hv). split.
    + intros (m & Hm & Hc). apply Hs, List.in_map_iff in Hm.
      destruct Hm as (ch & <- & Hin). eauto.
    + intros (ch & Hin & Hc). exists (coord ch). split; [|exact Hc].
      apply Hs, List.in_map, Hin.
Qed.

Lemma subdivision_composes_witness :
  exists direct twice,
    subdivide_to_level2 (1, 1, 1)%Z samples.osm_wide = Ok direct /\
    subdivide_twice (1, 1, 1)%Z samples.osm_wide = Ok twice /\
    forall c, In c direct <-> In c twice.
Proof.
  apply (subdivision_composes samples.deep
           (pyr_tiles_up_to samples.deep) "osm" (1, 1, 1)%Z
           (pyr_tile_bbox samples.deep (1, 1, 1)%Z)).
  - vm_compute. reflexivity.
  - vm_compute. reflexivity.
  - apply tiles_up_to_lists_candidates; vm_compute; reflexivity.
  - reflexivity.
Defined.

(** On the grid that lists every tile from the origin on, tile (1,1,1) has
    sixteen candidates, of which the test of line 132 keeps the four
    children. *)
Example corner_test_discards_candidates :
  length (candidates (1, 1, 1)%Z (pyr_tile_bbox samples.deep (1, 1, 1)%Z)
            samples.osm_wide) = 16%nat /\
  match _get_subtiles (1, 1, 1)%Z samples.osm_wide with
  | Ok (_, subs) =>
    List.map coord subs = [(2, 2, 2); (3, 2, 2); (2, 3, 2); (3, 3, 2)]%Z
  | Raise _ => False
  end.
Proof. vm_compute. split; reflexivity. Qed.

(** ** Rendering *)

(** What one call of [render] does to the world and what it hands back,
    once the map file name is resolved. *)
Lemma render_outcome (rt : Runtime) (self : MapnikSource) (query : MapQuery)
  (w : World) (mf : string) :
  resolve_mapfile rt self query = Ok mf ->
  let d := fst (mapnik_run rt mf query) in
  let out := snd (mapnik_run rt mf query) in
  let r := fst (render rt self query w) in
  let w' := snd (render rt self query w) in
  r = match out with
      | Ok data =>
        Ok (mkImageSource data (q_size query)
              (mkImageOptions (transparent self) None (Some (q_format query)))
              None)
      | Raise e => Raise e
      end /\
  now w' = now w + d /\
  request_log w'
  = request_log w ++
    [mkLogEntry mf (q_bbox query) (srs_code (q_srs query)) (q_size query)
       (match out with
        | Ok data => if truthy data then "200" else "500"
        | Raise _ => "500"
        end)
       (match out with
        | Ok data => if truthy data then Some (length data) else None
        | Raise _ => None
        end)
       "API" (now w + d - now w)] /\
  trace w'
  = trace w ++
    match lock self with
    | Some l => [EvAcquire l; EvBackendStart; EvBackendEnd; EvRelease l]
    | None => [EvBackendStart; EvBackendEnd]
    end /\
  held w'
  = match lock self with
    | Some l => ({[l]} ∪ held w) ∖ {[l]}
    | None => held w
    end.
Proof.
  intros Hmf d out r w'. subst r w' d out.
  unfold render. rewrite Hmf.
  unfold with_lock, render_mapfile, run_non_blocking, _render_mapfile,
    bind, try_finally, mapnik_calls, ret.
  destruct (lock self) as [l|]; simpl;
    destruct (mapnik_run rt mf query) as [d [data|e]]; simpl;
    rewrite <- ?app_assoc; simpl; repeat split; reflexivity.
Qed.

(** When line 76 or line 78 raises, [render] raises the same and nothing
    else has happened. *)
Lemma render_unresolved (rt : Runtime) (self : MapnikSource)
  (query : MapQuery) (w : World) (e : exn) :
  resolve_mapfile rt self query = Raise e ->
  render rt self query w = (Raise e, w).
Proof. intros He. unfold render. rewrite He. reflexivity. Qed.

(** How [get_map] passes on what [render] produced. *)
Lemma get_map_outcome (rt : Runtime) (self : MapnikSource) (query : MapQuery)
  (w : World) :
  out_of_range self query = false ->
  no_coverage self query = false ->
  get_map rt self query w
  = (match fst (render rt self query w) with
     | Ok resp => Ok (set_opacity resp (opacity self))
     | Raise (RuntimeError args) | Raise (HTTPClientError args) =>
       match first_arg args with
       | Ok msg => Raise (SourceError msg)
       | Raise e => Raise e
       end
     | Raise e => Raise e
     end,
     snd (render rt self query w)).
Proof.
  intros Hr Hc. unfold get_map. rewrite Hr, Hc.
  unfold try_except, bind, ret, raise_source_error, raise.
  destruct (render rt self query w) as [[resp|e] w']; simpl; [reflexivity|].
  destruct e; simpl; try reflexivity; destruct args; reflexivity.
Qed.

(** C4: a query outside a configured resolution range, or outside a
    configured coverage, makes [get_map] raise [BlankImage] and leaves the
    world as it was: the engine is not entered and nothing is logged; the
    signal is not a [SourceError]. *)
Theorem get_map_blank_without_render
  (rt : Runtime) (self : MapnikSource) (query : MapQuery) (w : World) :
  (forall r, res_range self = Some r ->
     contains r (q_bbox query) (q_size query) (q_srs query) = false ->
     get_map rt self query w = (Raise BlankImage, w) /\
     backend_calls (snd (get_map rt self query w)) = backend_calls w) /\
  (forall c, coverage self = Some c ->
     intersects c (q_bbox query) (q_srs query) = false ->
     get_map rt self query w = (Raise BlankImage, w) /\
     backend_calls (snd (get_map rt self query w)) = backend_calls w) /\
  (forall msg, BlankImage <> SourceError msg).
Proof.
  split; [|split].
  - intros r Hr Hc.
    assert (E : get_map rt self query w = (Raise BlankImage, w)).
    { unfold get_map, out_of_range. rewrite Hr, Hc. reflexivity. }
    rewrite E. split; reflexivity.
  - intros c Hc Hi.
    assert (E : get_map rt self query w = (Raise BlankImage, w)).
    { unfold get_map, no_coverage. rewrite Hc, Hi. simpl.
      destruct (out_of_range self query); reflexivity. }
    rewrite E. split; reflexivity.
  - intros msg. discriminate.
Qed.

Lemma get_map_blank_without_render_witness :
  (get_map samples.drawing samples.out_of_range_source samples.query idle
   = (Raise BlankImage, idle) /\
   backend_calls
     (snd (get_map samples.drawing samples.out_of_range_source
             samples.query idle)) = 0%nat) /\
  (get_map samples.drawing samples.uncovered_source samples.query idle
   = (Raise BlankImage, idle) /\
   backend_calls
     (snd (get_map samples.drawing samples.uncovered_source
             samples.query idle)) = 0%nat).
Proof.
  split.
  - apply (get_map_blank_without_render samples.drawing
             samples.out_of_range_source samples.query idle)
      with (r := samples.never); reflexivity.
  - apply (get_map_blank_without_render samples.drawing
             samples.uncovered_source samples.query idle)
      with (c := samples.nowhere); reflexivity.
Defined.




(** C7: once the map file name is resolved, [render] with a lock
    configured acquires it, then enters and leaves the engine, then
    releases it, whatever the engine's outcome, and the lock is not held
    afterwards; without a lock, which is what a source built with no [lock]
    argument has, the engine is entered directly. When resolving the name
    raises, [render] raises the same and touches neither lock nor engine. *)
Theorem render_lock_discipline
  (rt : Runtime) (self : MapnikSource) (query : MapQuery) (w : World) :
  let r := fst (render rt self query w) in
  let w' := snd (render rt self query w) in
  (forall mf, resolve_mapfile rt self query = Ok mf ->
     let out := snd (mapnik_run rt mf query) in
     (forall l, lock self = Some l ->
        trace w'
        = trace w ++ [EvAcquire l; EvBackendStart; EvBackendEnd; EvRelease l]
        /\ l ∉ held w') /\
     (lock self = None ->
        trace w' = trace w ++ [EvBackendStart; EvBackendEnd] /\
        held w' = held w) /\
     is_ok r = is_ok out /\
     (forall e, out = Raise e -> r = Raise e)) /\
  (forall e, resolve_mapfile rt self query = Raise e ->
     r = Raise e /\ w' = w) /\
  lock (new_source (mapfile self)) = None.
Proof.
  intros r w'. split; [|split; [|reflexivity]].
  - intros mf Hmf out.
    destruct (render_outcome rt self query w mf Hmf) as (Er & _ & _ & Et & Eh).
    fold out in Er. fold r in Er. fold w' in Et, Eh.
    split; [|split; [|split]].
    + intros l Hl. rewrite Hl in Et, Eh. split; [exact Et|].
      rewrite Eh. intros Hin. apply elem_of_difference in Hin.
      destruct Hin as [_ Hn]. apply Hn, elem_of_singleton. reflexivity.
    + intros Hl. rewrite Hl in Et, Eh. split; assumption.
    + rewrite Er. destruct out; reflexivity.
    + intros e He. rewrite Er, He. reflexivity.
  - intros e He. subst r w'.
    rewrite (render_unresolved rt self query w e He). split; reflexivity.
Qed.

Lemma render_lock_discipline_witness :
  trace (snd (render samples.no_font samples.locked_source samples.query idle))
  = [EvAcquire "mapnik.lck"; EvBackendStart; EvBackendEnd;
     EvRelease "mapnik.lck"] /\
  ("mapnik.lck" ∉
     held (snd (render samples.no_font samples.locked_source samples.query
                  idle))) /\
  trace (snd (render samples.drawing samples.plain_source samples.query idle))
  = [EvBackendStart; EvBackendEnd].
Proof.
  destruct (render_lock_discipline samples.no_font samples.locked_source
              samples.query idle) as (H & _).
  destruct (H "map.xml" eq_refl) as (Hl & _).
  destruct (Hl "mapnik.lck" eq_refl) as (Ht & Hh).
  destruct (render_lock_discipline samples.drawing samples.plain_source
              samples.query idle) as (H' & _).
  destruct (H' "map.xml" eq_refl) as (_ & Hn & _).
  destruct (Hn eq_refl) as (Ht' & _).
  split; [exact Ht|]. split; [exact Hh | exact Ht'].
Defined.

(** ** Concurrent renders under a lock *)

Lemma count_if_insert {A} (f : A -> bool) (l : list A) (i : nat) (x y : A) :
  l !! i = Some x ->
  (threads.count_if f (<[i:=y]> l) + (if f x then 1 else 0)
   = threads.count_if f l + (if f y then 1 else 0))%nat.
Proof.
  revert i. induction l as [|a l IH]; intros [|i] Hi; try discriminate.
  - injection Hi as ->. simpl. lia.
  - simpl in *. specialize (IH i Hi). lia.
Qed.

Lemma run_schedule_steps (c c' : threads.Config) (sched : list nat) :
  threads.run_schedule c sched = Some c' -> rtc threads.step c c'.
Proof.
  revert c. induction sched as [|i sched IH]; intros c; simpl.
  - intros [= ->]. apply rtc_refl.
  - destruct (threads.step_of c i) as [c1|] eqn:E; [|discriminate].
    intros H. apply rtc_l with c1; [|apply IH, H].
    unfold threads.step_of in E.
    destruct (threads.pending c !! i) as [[|[l|l| |] rest]|] eqn:Ep;
      try discriminate.
    + destruct (decide (l ∈ threads.locks c)); [discriminate|].
      injection E as <-. eapply threads.step_acquire; eassumption.
    + injection E as <-. eapply threads.step_release; eassumption.
    + injection E as <-. eapply threads.step_backend_start; eassumption.
    + injection E as <-. eapply threads.step_backend_end; eassumption.
Qed.

Section one_lock.

Variable l : string.

Lemma exclusive_step (c c' : threads.Config) :
  threads.exclusive l c -> threads.step c c' -> threads.exclusive l c'.
Proof.
  intros (Ht & Hh & Hi) Hstep.
  destruct Hstep as [c i l0 rest Hp Hfree|c i l0 rest Hp|c i rest Hp|c i rest Hp];
    pose proof (Forall_lookup_1 _ _ _ _ Ht Hp) as Hcur;
    pose proof (count_if_insert threads.holding _ i _ rest Hp) as Ch;
    pose proof (count_if_insert threads.inside _ i _ rest Hp) as Ci;
    unfold threads.exclusive; simpl threads.pending; simpl threads.locks;
    simpl threads.in_backend;
    destruct Hcur as [E|[E|[E|[E|E]]]]; try discriminate E;
    injection E as ?; subst; simpl in Ch, Ci.
  - split; [apply Forall_insert; [exact Ht | right; left; reflexivity]|].
    destruct (decide (l ∈ threads.locks c)); [contradiction|].
    rewrite decide_True by (apply elem_of_union_l, elem_of_singleton; reflexivity).
    split; lia.
  - split; [apply Forall_insert; [exact Ht | do 4 right; reflexivity]|].
    rewrite decide_False.
    2: { intros Hin. apply elem_of_difference in Hin.
         destruct Hin as [_ Hn]. apply Hn, elem_of_singleton. reflexivity. }
    destruct (decide (l ∈ threads.locks c)); split; lia.
  - split; [apply Forall_insert; [exact Ht | do 2 right; left; reflexivity]|].
    split; lia.
  - split; [apply Forall_insert; [exact Ht | do 3 right; left; reflexivity]|].
    split; lia.
Qed.

Lemma exclusive_bound (c : threads.Config) :
  threads.exclusive l c -> (threads.in_backend c <= 1)%nat.
Proof.
  intros (_ & Hh & Hi). rewrite Hi.
  assert (H : forall p : list (list event),
             (threads.count_if threads.inside p
              <= threads.count_if threads.holding p)%nat).
  { induction p as [|todo rest IH]; simpl; [lia|].
    destruct todo as [|[| | |] ?]; simpl; lia. }
  specialize (H (threads.pending c)).
  destruct (decide (l ∈ threads.locks c)); lia.
Qed.

End one_lock.

Lemma render_events_locked (rt : Runtime) (self : MapnikSource)
  (query : MapQuery) (l : string) :
  lock self = Some l ->
  threads.render_events rt self query
  = [EvAcquire l; EvBackendStart; EvBackendEnd; EvRelease l] \/
  threads.render_events rt self query = [].
Proof.
  intros Hl. unfold threads.render_events.
  destruct (resolve_mapfile rt self query) as [mf|e] eqn:Hmf.
  - left.
    destruct (render_outcome rt self query idle mf Hmf) as (_ & _ & _ & Et & _).
    rewrite Et, Hl. reflexivity.
  - right. rewrite (render_unresolved rt self query idle e Hmf). reflexivity.
Qed.

(** C9: with a lock configured, however the steps of any number of
    concurrent [render] calls on the source interleave (two in particular),
    at most one of them is inside the engine at any moment. *)
Theorem locked_renders_never_overlap
  (rt : Runtime) (self : MapnikSource) (l : string)
  (queries : list MapQuery) (c : threads.Config) :
  lock self = Some l ->
  threads.reachable rt self queries c ->
  (threads.in_backend c <= 1)%nat.
Proof.
  intros Hl Hreach. apply (exclusive_bound l).
  unfold threads.reachable in Hreach. revert c Hreach.
  apply (rtc_ind_r (threads.exclusive l)).
  - unfold threads.exclusive, threads.start. simpl.
    assert (H : forall qs,
               Forall (threads.on_track l) (List.map (threads.render_events rt self) qs) /\
               threads.count_if threads.holding
                 (List.map (threads.render_events rt self) qs) = 0%nat /\
               threads.count_if threads.inside
                 (List.map (threads.render_events rt self) qs) = 0%nat).
    { induction qs as [|q qs (IH1 & IH2 & IH3)]; simpl.
      - split; [constructor | split; reflexivity].
      - destruct (render_events_locked rt self q l Hl) as [-> | ->]; simpl.
        + split; [|split; assumption].
          constructor; [left; reflexivity | exact IH1].
        + split; [|split; assumption].
          constructor; [do 4 right; reflexivity | exact IH1]. }
    destruct (H queries) as (H1 & H2 & H3).
    split; [exact H1|]. rewrite H2, H3.
    rewrite decide_False by apply not_elem_of_empty. split; reflexivity.
  - intros c c' _ Hstep IH. eapply exclusive_step; eassumption.
Qed.

Lemma locked_renders_never_overlap_witness :
  match threads.run_schedule
          (threads.start samples.drawing samples.locked_source
             [samples.query; samples.query]) [0; 0]%nat with
  | Some c => (threads.in_backend c = 1 /\ threads.in_backend c <= 1)%nat
  | None => False
  end.
Proof.
  destruct (threads.run_schedule _ _) as [c|] eqn:E.
  - split; [vm_compute in E; injection E as <-; reflexivity|].
    apply (locked_renders_never_overlap samples.drawing samples.locked_source
             "mapnik.lck" [samples.query; samples.query] c eq_refl).
    apply run_schedule_steps with (sched := [0; 0]%nat). exact E.
  - vm_compute in E. discriminate E.
Defined.

(** While one handler is inside the engine, the other cannot start. *)
Example second_render_waits :
  threads.run_schedule
    (threads.start samples.drawing samples.locked_source
       [samples.query; samples.query]) [0; 0; 1]%nat = None.
Proof. vm_compute. reflexivity. Qed.

(** Without a lock both handlers can be inside the engine at once. *)
Example unlocked_renders_overlap :
  threads.in_backend <$>
    threads.run_schedule
      (threads.start samples.drawing samples.plain_source
         [samples.query; samples.query]) [0; 1]%nat = Some 2%nat.
Proof. vm_compute. reflexivity. Qed.

(** ** The pyramid's candidates and the spec's scenario *)

(** Every candidate the pyramid proposes for a tile has a box, and that
    box overlaps the tile's. *)
Lemma pyramid_candidates_overlap
  (p : Pyramid) (n : string) (t c : TileCoord) :
  0 < width p -> 0 < height p -> valid_tile p t ->
  In (Some c) (candidates t (pyr_tile_bbox p t) (pyr_layer p n)) ->
  _tile_bbox c (grid (pyr_layer p n)) = Some (pyr_tile_bbox p c) /\
  bbox_overlaps (pyr_tile_bbox p c) (pyr_tile_bbox p t).
Proof.
  intros Hw Hh Hv Hin. unfold candidates, level in Hin.
  change (get_affected_level_tiles (grid (pyr_layer p n)))
    with (pyr_get_affected_level_tiles p) in Hin.
  apply (affected_tiles_below p Hw Hh t c 1 Hv) in Hin; [|lia].
  split.
  - apply tile_bbox_valid, (below_valid p t c 1); [assumption|lia|assumption].
  - destruct t as [[x y] z]. destruct Hv as (Hz & Hx & Hy).
    destruct Hin as (_ & x' & y' & -> & Hx' & Hy').
    assert (Hlt : forall a b : Q, a < b <-> ~ b <= a).
    { intros a b. split; [apply Qlt_not_le | apply Qnot_le_lt]. }
    unfold bbox_overlaps, pyr_tile_bbox, cell_w, cell_h. simpl.
    rewrite !Hlt, !border_le, !border_ge by (assumption || lia).
    lia.
Qed.

(** Tile (0,0,0) over the full extent of the spherical web projection has
    exactly four children at level 1, one per quadrant, reaching from
    latitude -90 to latitude 90. *)
Example root_tile_has_four_children :
  match _get_subtiles (0, 0, 0)%Z samples.osm with
  | Ok (tile_grid, subs) =>
    tile_grid = (2, 2)%Z /\
    List.map coord subs
    = [(0, 0, 1); (1, 0, 1); (0, 1, 1); (1, 1, 1)]%Z /\
    List.map (fun s => (Qred (miny (bbox s)), Qred (maxy (bbox s)))) subs
    = [(-90, 0); (-90, 0); (0, 90); (0, 90)]
  | Raise _ => False
  end.
Proof. vm_compute. repeat split. Qed.

(** * Further properties *)

(** ** Layer lookup and the errors of a KML request *)

Lemma layer_raises (self : KMLServer) (req : KMLRequest) (e : exn) :
  layer self req = Raise e ->
  e = RequestError ("unknown layer: " ++ req_layer req)%string None /\
  layers self !! req_layer req = None.
Proof.
  unfold layer.
  destruct (layers self !! req_layer req); [discriminate|].
  destruct (layers self !! _); [discriminate|].
  destruct (layers self !! _); [discriminate|].
  intros [= <-]. split; reflexivity.
Qed.

(** X1: [check_map_request] accepts a request only when its layer is
    configured under the requested name, and [layer] then returns that very
    layer; whenever [layer] fails, [check_map_request] fails with the same
    "unknown layer" error. *)
Theorem check_map_request_then_layer (self : KMLServer) (req : KMLRequest) :
  (check_map_request self req = Ok tt ->
   exists l, layers self !! req_layer req = Some l /\ layer self req = Ok l) /\
  (forall e, layer self req = Raise e ->
     e = RequestError ("unknown layer: " ++ req_layer req)%string None /\
     check_map_request self req = Raise e).
Proof.
  split.
  - unfold check_map_request, layer.
    destruct (layers self !! req_layer req) as [l|]; [|discriminate].
    intros _. exists l. split; reflexivity.
  - intros e He. destruct (layer_raises self req e He) as [-> Hn].
    unfold check_map_request. rewrite Hn. split; reflexivity.
Qed.

Lemma check_map_request_then_layer_witness :
  (exists l, layers samples.server !! "osm" = Some l /\
             layer samples.server
               (samples.request_for (0, 0, 0)%Z samples.open_env) = Ok l) /\
  check_map_request (mkKMLServer ∅ 0)
    (samples.request_for (0, 0, 0)%Z samples.open_env)
  = Raise (RequestError "unknown layer: osm" None).
Proof.
  split.
  - apply (check_map_request_then_layer samples.server
             (samples.request_for (0, 0, 0)%Z samples.open_env)).
    reflexivity.
  - apply (check_map_request_then_layer (mkKMLServer ∅ 0)
             (samples.request_for (0, 0, 0)%Z samples.open_env)).
    reflexivity.
Defined.

(** X2: [layer] falls back to the name with [_EPSG4326], then with
    [_EPSG900913], appended, so it can succeed where [check_map_request]
    rejects the request; the exact name always wins over the suffixed
    ones. *)
Theorem layer_suffix_fallback (self : KMLServer) (req : KMLRequest) (l : Layer) :
  layers self !! req_layer req = None ->
  layers self !! (req_layer req ++ "_EPSG4326")%string = Some l ->
  layer self req = Ok l /\
  check_map_request self req
  = Raise (RequestError ("unknown layer: " ++ req_layer req)%string None) /\
  forall exact,
    layer (mkKMLServer (<[req_layer req := exact]> (layers self))
             (max_age self)) req = Ok exact.
Proof.
  intros Hn Hs. unfold layer, check_map_request. rewrite Hn, Hs.
  split; [reflexivity|]. split; [reflexivity|].
  intros exact. simpl. rewrite lookup_insert_eq. reflexivity.
Qed.

Lemma layer_suffix_fallback_witness :
  layer samples.suffixed_server
    (samples.request_for (0, 0, 0)%Z samples.open_env) = Ok samples.osm_4326 /\
  check_map_request samples.suffixed_server
    (samples.request_for (0, 0, 0)%Z samples.open_env)
  = Raise (RequestError "unknown layer: osm" None).
Proof.
  destruct (layer_suffix_fallback samples.suffixed_server
              (samples.request_for (0, 0, 0)%Z samples.open_env)
              samples.osm_4326 eq_refl eq_refl) as (H1 & H2 & _).
  split; [exact H1 | exact H2].
Defined.

(** ** Denied requests *)

(** X17: when the authorization of the layer a request resolves to fails,
    neither [map] nor [kml] goes any further: both raise that error, the
    tile is not rendered and no document is built. The callback is asked
    about the name of the layer found, not the name in the request. *)
Theorem denied_request_not_served
  (self : KMLServer) (req : KMLRequest) (l : Layer) (e : exn) :
  layer self req = Ok l ->
  authorize_tile_layer (name l) (environ (http req)) = Raise e ->
  kml.map self req = Raise e /\ kml self req = Raise e /\
  e = RequestError "forbidden" (Some 403%Z).
Proof.
  intros Hl Ha. unfold kml.map, kml. rewrite Hl, Ha.
  split; [reflexivity|]. split; [reflexivity|].
  unfold authorize_tile_layer in Ha.
  destruct (mapproxy_authorize _); [|discriminate].
  repeat match type of Ha with
         | context [if ?b then _ else _] => destruct b
         end; try discriminate.
  injection Ha as <-. reflexivity.
Qed.

Lemma denied_request_not_served_witness :
  kml.map samples.server
    (samples.request_for (0, 0, 0)%Z (samples.grant "none" (PyBool true)))
  = Raise (RequestError "forbidden" (Some 403%Z)) /\
  kml samples.server
    (samples.request_for (0, 0, 0)%Z (samples.grant "none" (PyBool true)))
  = Raise (RequestError "forbidden" (Some 403%Z)).
Proof.
  destruct (denied_request_not_served samples.server
              (samples.request_for (0, 0, 0)%Z
                 (samples.grant "none" (PyBool true)))
              samples.osm (RequestError "forbidden" (Some 403%Z))
              eq_refl eq_refl) as (H1 & H2 & _).
  split; [exact H1 | exact H2].
Defined.

(** ** The list of subtiles *)






(** ** The KML hierarchy over the pyramid *)

Lemma links_to_below (p : Pyramid) (n : string) (t c : TileCoord) :
  0 < width p -> 0 < height p ->
  links_to (pyr_layer p n) t c <-> valid_tile p t /\ below p t 1 c.
Proof.
  intros Hw Hh. split.
  - intros (tg & subs & E & Hin).
    assert (Hv : valid_tile p t).
    { unfold _get_subtiles, _tile_bbox in E. simpl in E.
      destruct (pyr_internal_tile_coord p t) as [t'|] eqn:Et;
        [|discriminate].
      apply (pyr_internal_some p t t' Et). }
    split; [exact Hv|].
    destruct (get_subtiles_children p Hw Hh n t Hv) as (tg' & subs' & E' & Hs).
    rewrite E in E'. injection E' as <- <-. apply Hs, Hin.
  - intros [Hv Hb].
    destruct (get_subtiles_children p Hw Hh n t Hv) as (tg & subs & E & Hs).
    exists tg, subs. split; [exact E | apply Hs, Hb].
Qed.

(** X5: over the pyramid, for every grid whose list of affected tiles
    contains the overlapping tiles and otherwise only tiles that start
    before the tile's lower-left corner, no tile is linked from two
    different KML documents: a tile that [_get_subtiles] yields for [t1]
    and for [t2] forces [t1 = t2], also when the grid lists it for both. *)
Theorem subtile_has_one_parent
  (p : Pyramid)
  (affected : BBox -> Z -> BBox * (Z * Z) * list (option TileCoord))
  (n : string) (t1 t2 c : TileCoord) :
  0 < width p -> 0 < height p ->
  lists_candidates p affected ->
  links_to (listing_layer p affected n) t1 c ->
  links_to (listing_layer p affected n) t2 c ->
  t1 = t2.
Proof.
  intros Hw Hh Hlist H1 H2.
  apply (listing_links_to p Hw Hh affected Hlist n t1 c) in H1.
  apply (listing_links_to p Hw Hh affected Hlist n t2 c) in H2.
  destruct t1 as [[x1 y1] z1], t2 as [[x2 y2] z2].
  destruct H1 as (_ & _ & a & b' & -> & Ha & Hb).
  destruct H2 as (_ & _ & a' & b'' & [= -> -> Hz] & Ha' & Hb').
  change (cells 1) with 2%Z in *.
  f_equal; [f_equal|]; lia.
Qed.

Lemma subtile_has_one_parent_witness :
  In (Some (1, 1, 2)%Z)
    (candidates (1, 1, 1)%Z (pyr_tile_bbox samples.deep (1, 1, 1)%Z)
       samples.osm_wide) /\
  links_to samples.osm_wide (0, 0, 1)%Z (1, 1, 2)%Z /\
  (0, 0, 1)%Z = (0, 0, 1)%Z.
Proof.
  assert (H : links_to samples.osm_wide (0, 0, 1)%Z (1, 1, 2)%Z).
  { eexists _, _. split; [reflexivity|].
    vm_compute. do 3 right. left. reflexivity. }
  split; [vm_compute; do 5 right; left; reflexivity|].
  split; [exact H|].
  apply (subtile_has_one_parent samples.deep (pyr_tiles_up_to samples.deep)
           "osm" (0, 0, 1)%Z (0, 0, 1)%Z (1, 1, 2)%Z);
    [vm_compute; reflexivity | vm_compute; reflexivity
     | apply tiles_up_to_lists_candidates; vm_compute; reflexivity
     | exact H | exact H].
Defined.

(** X6: over the pyramid every tile that has a cell is reached from tile
    (0,0,0) by following the links of the KML documents, and nothing else
    is. *)
Theorem every_tile_linked_from_root
  (p : Pyramid) (n : string) (c : TileCoord) :
  0 < width p -> 0 < height p -> (0 < num_levels p)%Z ->
  rtc (links_to (pyr_layer p n)) (0, 0, 0)%Z c <-> valid_tile p c.
Proof.
  intros Hw Hh Hn. split.
  - intros Hr.
    assert (Hroot : valid_tile p (0, 0, 0)%Z).
    { simpl. unfold cells. simpl. lia. }
    induction Hr as [|t m c Hl _ IH]; [exact Hroot|].
    apply IH. apply (links_to_below p n t m Hw Hh) in Hl.
    destruct Hl as [Hv Hb]. apply (below_valid p t m 1 Hv); [lia|exact Hb].
  - destruct c as [[x y] z]. intros (Hz & Hx & Hy).
    assert (Hnat : exists k : nat, z = Z.of_nat k)
      by (exists (Z.to_nat z); lia).
    destruct Hnat as (k & ->). revert x y Hz Hx Hy.
    induction k as [|k IH]; intros x y Hz Hx Hy.
    + change (cells (Z.of_nat 0)) with 1%Z in *.
      assert (x = 0%Z) as -> by lia. assert (y = 0%Z) as -> by lia.
      apply rtc_refl.
    + assert (Hc : cells (Z.of_nat (S k)) = (2 * cells (Z.of_nat k))%Z).
      { unfold cells. rewrite Nat2Z.inj_succ, Z.pow_succ_r by lia.
        reflexivity. }
      rewrite Hc in Hx, Hy.
      pose proof (Z.div_mod x 2 ltac:(lia)).
      pose proof (Z.mod_pos_bound x 2 ltac:(lia)).
      pose proof (Z.div_mod y 2 ltac:(lia)).
      pose proof (Z.mod_pos_bound y 2 ltac:(lia)).
      apply rtc_r with ((x / 2)%Z, (y / 2)%Z, Z.of_nat k).
      * apply IH; lia.
      * apply (links_to_below p n _ _ Hw Hh). split.
        -- simpl. lia.
        -- split; [lia|]. exists x, y.
           change (cells 1) with 2%Z.
           split; [f_equal; lia | lia].
Qed.

Lemma every_tile_linked_from_root_witness :
  rtc (links_to samples.osm) (0, 0, 0)%Z (3, 2, 2)%Z.
Proof.
  apply (every_tile_linked_from_root samples.mercator "osm" (3, 2, 2)%Z);
    [reflexivity | reflexivity | reflexivity |].
  vm_compute. repeat split; discriminate.
Defined.

(** ** Latitudes over the web-projection pyramid *)

Lemma to_wgs_latitudes (src_bbox : BBox) (g : Grid) :
  srs_code (srs g) = 900913%Z ->
  let t := transform_bbox_to (srs g) 4326%Z src_bbox 4%nat in
  miny (_tile_bbox_to_wgs src_bbox g)
  = (if Qlt_bool (Qabs (miny src_bbox - - max_extent)) tolerance
     then -90 else miny t) /\
  maxy (_tile_bbox_to_wgs src_bbox g)
  = (if Qlt_bool (Qabs (maxy src_bbox - max_extent)) tolerance
     then 90 else maxy t).
Proof.
  intros Hs t. unfold _tile_bbox_to_wgs, srs_eq. rewrite Hs, Z.eqb_refl.
  fold t.
  destruct (Qlt_bool (Qabs (miny src_bbox - - max_extent)) tolerance);
    destruct (Qlt_bool (Qabs (maxy src_bbox - max_extent)) tolerance);
    split; reflexivity.
Qed.

Lemma cells_times_cell (extent : Q) (z : Z) :
  (0 <= z)%Z -> inject_Z (cells z) * (extent / inject_Z (cells z)) == extent.
Proof.
  intros Hz. pose proof (inject_Z_pos _ (cells_pos z Hz)). field. lra.
Qed.

(** X7: in a pyramid that spans the web projection's full height, at every
    level the tiles of the bottom row get latitude -90 and those of the top
    row latitude 90; as long as a cell is at least 0.1 high, no other edge
    is clamped. *)
Theorem pyramid_rows_reach_poles (p : Pyramid) (x y z : Z) :
  srs_code (pyr_srs p) = 900913%Z ->
  origin_y p == - 20037508.342789244 ->
  height p == 40075016.685578488 ->
  valid_tile p (x, y, z) ->
  exists b,
    _tile_wgs_bbox (x, y, z) (to_grid p) = Some b /\
    let t := transform_bbox_to (pyr_srs p) 4326%Z
               (pyr_tile_bbox p (x, y, z)) 4%nat in
    (y = 0%Z -> miny b = -90) /\
    (y = (cells z - 1)%Z -> maxy b = 90) /\
    (0.1 <= cell_h p z ->
       ((0 < y)%Z -> miny b = miny t) /\
       ((y < cells z - 1)%Z -> maxy b = maxy t)).
Proof.
  intros Hs Ho Hh Hv.
  unfold _tile_wgs_bbox. rewrite (tile_bbox_valid p (x, y, z) Hv).
  eexists. split; [reflexivity|].
  destruct (to_wgs_latitudes (pyr_tile_bbox p (x, y, z)) (to_grid p) Hs)
    as [Eb Et].
  rewrite Eb, Et. clear Eb Et.
  destruct Hv as (Hz & Hx & Hy).
  pose proof (cells_times_cell (height p) z ltac:(lia)) as Hc.
  fold (cell_h p z) in Hc.
  unfold max_extent, tolerance. simpl miny. simpl maxy.
  cbv zeta. split; [|split].
  - intros ->.
    assert (H : Qlt_bool
                  (Qabs (origin_y p + inject_Z 0 * cell_h p z
                         - - (20037508.342789244))) 0.1 = true).
    { apply Qlt_bool_iff, Qabs_Qlt_condition.
      change (inject_Z 0) with 0. split; lra. }
    rewrite H. reflexivity.
  - intros ->.
    replace (cells z - 1 + 1)%Z with (cells z) by lia.
    assert (H : Qlt_bool
                  (Qabs (origin_y p + inject_Z (cells z) * cell_h p z
                         - 20037508.342789244)) 0.1 = true).
    { apply Qlt_bool_iff, Qabs_Qlt_condition. split; lra. }
    rewrite H. reflexivity.
  - intros Hbig. split.
    + intros Hy0.
      assert (H : Qlt_bool
                    (Qabs (origin_y p + inject_Z y * cell_h p z
                           - - (20037508.342789244))) 0.1 = false).
      { apply Qlt_bool_false. intros Hlt.
        apply Qabs_Qlt_condition in Hlt.
        assert (1 * cell_h p z <= inject_Z y * cell_h p z).
        { apply Qmult_le_compat_r; [|lra].
          change 1 with (inject_Z 1). rewrite <- Zle_Qle. lia. }
        lra. }
      rewrite H. reflexivity.
    + intros Hy1.
      assert (H : Qlt_bool
                    (Qabs (origin_y p + inject_Z (y + 1) * cell_h p z
                           - 20037508.342789244)) 0.1 = false).
      { apply Qlt_bool_false. intros Hlt.
        apply Qabs_Qlt_condition in Hlt.
        assert (1 * cell_h p z
                <= inject_Z (cells z - (y + 1)) * cell_h p z).
        { apply Qmult_le_compat_r; [|lra].
          change 1 with (inject_Z 1). rewrite <- Zle_Qle. lia. }
        assert (inject_Z (cells z - (y + 1))
                == inject_Z (cells z) - inject_Z (y + 1)).
        { unfold Z.sub. rewrite inject_Z_plus, inject_Z_opp. ring. }
        assert (inject_Z (cells z - (y + 1)) * cell_h p z
                == height p - inject_Z (y + 1) * cell_h p z).
        { rewrite H0, <- Hc. ring. }
        lra. }
      rewrite H. reflexivity.
Qed.

Lemma pyramid_rows_reach_poles_witness :
  exists b,
    _tile_wgs_bbox (2, 0, 2)%Z (to_grid samples.mercator) = Some b /\
    miny b = -90.
Proof.
  destruct (pyramid_rows_reach_poles samples.mercator 2 0 2)
    as (b & E & H0 & _).
  - reflexivity.
  - reflexivity.
  - reflexivity.
  - vm_compute. repeat split; discriminate.
  - exists b. split; [exact E | apply H0; reflexivity].
Defined.

(** ** What a caller of [get_map] can observe *)

Lemma backend_calls_app (w : World) (evs : list event) (tr : list event) :
  trace w = tr ++ evs ->
  backend_calls w
  = (length (filter (fun ev => ev = EvBackendStart) tr)
     + length (filter (fun ev => ev = EvBackendStart) evs))%nat.
Proof.
  intros E. unfold backend_calls. rewrite E, filter_app, length_app.
  reflexivity.
Qed.

(** X8: [get_map] enters the engine exactly once and writes exactly one
    log record when the query passes the range and coverage checks and the
    map file name is resolved, and does neither when a check fails or
    resolving the name raises; so every engine run is logged once. *)
Theorem get_map_calls_backend_once
  (rt : Runtime) (self : MapnikSource) (query : MapQuery) (w : World) :
  let w' := snd (get_map rt self query w) in
  let k := if out_of_range self query || no_coverage self query
           then 0%nat
           else if is_ok (resolve_mapfile rt self query) then 1%nat
                else 0%nat in
  backend_calls w' = (backend_calls w + k)%nat /\
  length (request_log w') = (length (request_log w) + k)%nat.
Proof.
  intros w' k. subst w' k.
  destruct (out_of_range self query) eqn:Hr; simpl orb; cbv iota.
  { unfold get_map. rewrite Hr. simpl. split; lia. }
  destruct (no_coverage self query) eqn:Hc.
  { unfold get_map. rewrite Hr, Hc. simpl. split; lia. }
  rewrite (get_map_outcome rt self query w Hr Hc). simpl snd.
  destruct (resolve_mapfile rt self query) as [mf|e] eqn:Hmf; simpl is_ok;
    cbv iota.
  - destruct (render_outcome rt self query w mf Hmf) as (_ & _ & El & Et & _).
    split.
    + rewrite (backend_calls_app _ _ _ Et). unfold backend_calls.
      destruct (lock self); reflexivity.
    + rewrite El, length_app. reflexivity.
  - rewrite (render_unresolved rt self query w e Hmf). simpl. split; lia.
Qed.

(** X9: no [RuntimeError] and no [HTTPClientError] ever comes out of
    [get_map]: whatever the engine raises, the caller does not see these
    two kinds. *)
Theorem get_map_hides_low_level_faults
  (rt : Runtime) (self : MapnikSource) (query : MapQuery) (w : World)
  (args : list string) :
  fst (get_map rt self query w) <> Raise (RuntimeError args) /\
  fst (get_map rt self query w) <> Raise (HTTPClientError args).
Proof.
  destruct (out_of_range self query) eqn:Hr.
  { unfold get_map. rewrite Hr. split; discriminate. }
  destruct (no_coverage self query) eqn:Hc.
  { unfold get_map. rewrite Hr, Hc. split; discriminate. }
  rewrite (get_map_outcome rt self query w Hr Hc). simpl fst.
  destruct (fst (render rt self query w)) as [resp|e];
    [split; discriminate|].
  destruct e; try (split; discriminate);
    destruct args0; simpl; split; discriminate.
Qed.

(** X10: a [RuntimeError] or [HTTPClientError] that carries no argument
    does not become a [SourceError]: reading [args[0]] fails, and
    [get_map] raises [IndexError]; the failed render is still logged. *)
Theorem get_map_fault_without_message
  (rt : Runtime) (self : MapnikSource) (query : MapQuery) (w : World)
  (mf : string) :
  out_of_range self query = false ->
  no_coverage self query = false ->
  resolve_mapfile rt self query = Ok mf ->
  (snd (mapnik_run rt mf query) = Raise (RuntimeError []) \/
   snd (mapnik_run rt mf query) = Raise (HTTPClientError [])) ->
  fst (get_map rt self query w) = Raise IndexError /\
  exists e, request_log (snd (get_map rt self query w))
            = request_log w ++ [e] /\ log_status e = "500".
Proof.
  intros Hr Hc Hmf Hout.
  rewrite (get_map_outcome rt self query w Hr Hc). simpl fst. simpl snd.
  destruct (render_outcome rt self query w mf Hmf) as (Er & _ & El & _).
  rewrite Er, El.
  destruct Hout as [-> | ->]; (split; [reflexivity|]);
    eexists; (split; [reflexivity|]); reflexivity.
Qed.

Lemma get_map_fault_without_message_witness :
  fst (get_map samples.no_args samples.plain_source samples.query idle)
  = Raise IndexError.
Proof.
  apply (get_map_fault_without_message samples.no_args samples.plain_source
           samples.query idle "map.xml" eq_refl eq_refl eq_refl).
  left. reflexivity.
Defined.

(** X11: [get_map] leaves every lock other than the source's own as it
    was, and when the source's lock was free on entry (or there is none)
    the set of held locks afterwards is the set held before. *)
Theorem get_map_restores_locks
  (rt : Runtime) (self : MapnikSource) (query : MapQuery) (w : World) :
  let w' := snd (get_map rt self query w) in
  (forall l', lock self <> Some l' -> (l' ∈ held w' <-> l' ∈ held w)) /\
  (forall l, lock self = Some l -> l ∉ held w -> held w' = held w) /\
  (lock self = None -> held w' = held w).
Proof.
  intros w'.
  assert (E : held w' = match lock self with
                        | Some l => ({[l]} ∪ held w) ∖ {[l]}
                        | None => held w
                        end \/ held w' = held w).
  { subst w'.
    destruct (out_of_range self query) eqn:Hr.
    { right. unfold get_map. rewrite Hr. reflexivity. }
    destruct (no_coverage self query) eqn:Hc.
    { right. unfold get_map. rewrite Hr, Hc. reflexivity. }
    rewrite (get_map_outcome rt self query w Hr Hc). simpl snd.
    destruct (resolve_mapfile rt self query) as [mf|e] eqn:Hmf.
    - left. apply (render_outcome rt self query w mf Hmf).
    - right. rewrite (render_unresolved rt self query w e Hmf).
      reflexivity. }
  split; [|split].
  - intros l' Hne. destruct E as [E|E]; rewrite E; [|tauto].
    destruct (lock self) as [l|]; [|tauto].
    rewrite elem_of_difference, elem_of_union, !elem_of_singleton.
    assert (l' <> l) by congruence. tauto.
  - intros l Hl Hfree. destruct E as [E|E]; rewrite E; [|reflexivity].
    rewrite Hl. apply set_eq. intros x.
    rewrite elem_of_difference, elem_of_union, !elem_of_singleton.
    split; [tauto|]. intros Hx. split; [tauto|]. congruence.
  - intros Hl. destruct E as [E|E]; rewrite E; [|reflexivity].
    rewrite Hl. reflexivity.
Qed.

Lemma get_map_restores_locks_witness :
  held (snd (get_map samples.no_font samples.locked_source samples.query
               (samples.unlocked_other idle)))
  = held (samples.unlocked_other idle).
Proof.
  destruct (get_map_restores_locks samples.no_font samples.locked_source
              samples.query (samples.unlocked_other idle)) as (_ & H & _).
  apply (H "mapnik.lck" eq_refl).
  intros Hin. apply elem_of_union in Hin.
  destruct Hin as [Hin|Hin].
  - apply elem_of_singleton in Hin. discriminate Hin.
  - apply not_elem_of_empty in Hin. exact Hin.
Defined.

(** ** The level placeholder in the map file name *)

Lemma append_String (a : Ascii.ascii) (s b : string) :
  (String a s ++ b)%string = String a (s ++ b)%string.
Proof. reflexivity. Qed.

Lemma append_empty (s : string) : ("" ++ s)%string = s.
Proof. reflexivity. Qed.

Lemma prefix_append (s1 s2 : string) :
  String.prefix s1 s2 = true <-> exists b, s2 = (s1 ++ b)%string.
Proof.
  revert s2. induction s1 as [|a s1 IH]; intros s2.
  - split; [intros _; exists s2; reflexivity|]. intros _.
    destruct s2; reflexivity.
  - destruct s2 as [|c s2]; simpl.
    + split; [discriminate|]. intros (b & Hb).
      rewrite append_String in Hb. discriminate Hb.
    + destruct (Ascii.ascii_dec a c) as [->|Hne].
      * rewrite IH. split.
        -- intros (b & ->). exists b. reflexivity.
        -- intros (b & Hb). rewrite append_String in Hb.
           injection Hb as ->. exists b. reflexivity.
      * split; [discriminate|]. intros (b & Hb).
        rewrite append_String in Hb. injection Hb as <- _. contradiction.
Qed.

Lemma index_String (s1 : string) (c : Ascii.ascii) (s2 : string) :
  String.index 0 s1 (String c s2)
  = if String.prefix s1 (String c s2) then Some 0%nat
    else match String.index 0 s1 s2 with
         | Some n => Some (S n)
         | None => None
         end.
Proof. reflexivity. Qed.

Lemma index_found (s1 s2 : string) :
  (exists k, String.index 0 s1 s2 = Some k) <->
  exists a b, s2 = (a ++ s1 ++ b)%string.
Proof.
  induction s2 as [|c s2 IH].
  - simpl. destruct s1 as [|a1 s1].
    + split; [intros _; exists "", ""; reflexivity|].
      intros _. exists 0%nat. reflexivity.
    + split; [intros (k & Hk); discriminate Hk|].
      intros (a & b & H).
      destruct a; rewrite ?append_empty, !append_String in H;
        discriminate H.
  - rewrite index_String.
    destruct (String.prefix s1 (String c s2)) eqn:Ep.
    + split; [|intros _; exists 0%nat; reflexivity].
      intros _. apply prefix_append in Ep.
      destruct Ep as (b & Hb). exists "", b. exact Hb.
    + split.
      * intros (k & Hk).
        destruct (String.index 0 s1 s2) as [k'|] eqn:Ei; [|discriminate].
        destruct (proj1 IH (ex_intro _ k' eq_refl)) as (a & b & ->).
        exists (String c a), b. reflexivity.
      * intros (a & b & H). destruct a as [|c' a].
        -- rewrite append_empty in H.
           assert (String.prefix s1 (String c s2) = true)
             by (apply prefix_append; exists b; exact H).
           congruence.
        -- rewrite append_String in H. injection H as -> ->.
           destruct (proj2 IH (ex_intro _ a (ex_intro _ b eq_refl)))
             as (k & ->).
           exists (S k). reflexivity.
Qed.

(** X12: [render] applies [%] to the map file name exactly when the name
    contains the text [%(webmercator_level)] somewhere; a name without it
    reaches the engine as it is. When the level or [%] raises, as on a
    malformed name, [render] raises the same before lock, engine and log
    are touched. *)
Theorem resolve_mapfile_placeholder
  (rt : Runtime) (self : MapnikSource) (query : MapQuery) (w : World) :
  ((exists a b, mapfile self = (a ++ "%(webmercator_level)" ++ b)%string) ->
   resolve_mapfile rt self query
   = match webmercator_level rt query with
     | Ok level => percent_format rt (mapfile self) level
     | Raise e => Raise e
     end) /\
  (~ (exists a b, mapfile self = (a ++ "%(webmercator_level)" ++ b)%string) ->
   resolve_mapfile rt self query = Ok (mapfile self)) /\
  (forall e, resolve_mapfile rt self query = Raise e ->
     render rt self query w = (Raise e, w)).
Proof.
  split; [|split].
  - unfold resolve_mapfile, has_level_placeholder.
    pose proof (index_found "%(webmercator_level)" (mapfile self)) as H.
    destruct (String.index 0 "%(webmercator_level)" (mapfile self)) as [k|];
      [reflexivity|].
    intros Hy. apply H in Hy. destruct Hy as (k & Hk). discriminate Hk.
  - unfold resolve_mapfile, has_level_placeholder.
    pose proof (index_found "%(webmercator_level)" (mapfile self)) as H.
    destruct (String.index 0 "%(webmercator_level)" (mapfile self)) as [k|];
      [|reflexivity].
    intros Hn. exfalso. apply Hn, H. eauto.
  - intros e He. apply render_unresolved, He.
Qed.

Lemma resolve_mapfile_placeholder_witness :
  resolve_mapfile samples.formatting samples.levelled_source samples.query
  = Ok "osm-7.xml" /\
  render samples.formatting samples.malformed_source samples.query idle
  = (Raise (OtherError "ValueError"), idle).
Proof.
  destruct (resolve_mapfile_placeholder samples.formatting
              samples.levelled_source samples.query idle) as (H1 & _).
  destruct (resolve_mapfile_placeholder samples.formatting
              samples.malformed_source samples.query idle) as (_ & _ & H3).
  split.
  - rewrite H1; [reflexivity|]. exists "osm-", "s.xml". reflexivity.
  - apply H3. reflexivity.
Defined.

(** ** Runs of concurrent renders *)

Lemma start_exclusive (rt : Runtime) (self : MapnikSource) (l : string)
  (queries : list MapQuery) :
  lock self = Some l -> threads.exclusive l (threads.start rt self queries).
Proof.
  intros Hl. unfold threads.exclusive, threads.start. simpl.
  induction queries as [|q qs (IH1 & IH2 & IH3)]; simpl.
  - split; [constructor|]. rewrite decide_False by apply not_elem_of_empty.
    split; reflexivity.
  - destruct (render_events_locked rt self q l Hl) as [-> | ->]; simpl.
    + split; [constructor; [left; reflexivity | exact IH1]|].
      split; assumption.
    + split; [constructor; [do 4 right; reflexivity | exact IH1]|].
      split; assumption.
Qed.

Lemma reachable_exclusive (rt : Runtime) (self : MapnikSource) (l : string)
  (queries : list MapQuery) (c : threads.Config) :
  lock self = Some l -> threads.reachable rt self queries c ->
  threads.exclusive l c.
Proof.
  intros Hl Hreach. unfold threads.reachable in Hreach. revert c Hreach.
  apply (rtc_ind_r (threads.exclusive l)).
  - apply start_exclusive, Hl.
  - intros c c' _ Hstep IH. eapply exclusive_step; eassumption.
Qed.

(** Either every handler is done, or one holds the lock, or nobody holds
    it and one is waiting for it. *)
Lemma on_track_cases (l : string) (p : list (list event)) :
  Forall (threads.on_track l) p ->
  Forall (fun todo => todo = []) p \/
  (exists i todo, p !! i = Some todo /\ threads.holding todo = true) \/
  (threads.count_if threads.holding p = 0%nat /\
   exists i, p !! i
             = Some [EvAcquire l; EvBackendStart; EvBackendEnd; EvRelease l]).
Proof.
  induction 1 as [|todo p Htodo _ IH].
  - left. constructor.
  - destruct Htodo as [-> | [-> | [-> | [-> | ->]]]].
    + destruct IH as [IH|[(i & t & Hi & Ht)|(Hc & i & Hi)]].
      * right. right. split.
        -- simpl. clear -IH.
           induction IH as [|t p' Ht _ IH']; [reflexivity|].
           subst t. simpl. lia.
        -- exists 0%nat. reflexivity.
      * right. left. exists (S i), t. split; assumption.
      * right. right. split; [simpl; lia|]. exists 0%nat. reflexivity.
    + right. left. exists 0%nat, [EvBackendStart; EvBackendEnd; EvRelease l].
      split; reflexivity.
    + right. left. exists 0%nat, [EvBackendEnd; EvRelease l].
      split; reflexivity.
    + right. left. exists 0%nat, [EvRelease l]. split; reflexivity.
    + destruct IH as [IH|[(i & t & Hi & Ht)|(Hc & i & Hi)]].
      * left. constructor; [reflexivity | exact IH].
      * right. left. exists (S i), t. split; assumption.
      * right. right. split; [simpl; lia|]. exists (S i). exact Hi.
Qed.

(** X13: concurrent renders under a lock never get stuck: in every state
    they can reach, either all of them have returned or one of them can
    take its next step. *)
Theorem locked_renders_never_deadlock
  (rt : Runtime) (self : MapnikSource) (l : string)
  (queries : list MapQuery) (c : threads.Config) :
  lock self = Some l ->
  threads.reachable rt self queries c ->
  threads.finished c \/ exists c', threads.step c c'.
Proof.
  intros Hl Hreach.
  destruct (reachable_exclusive rt self l queries c Hl Hreach)
    as (Ht & Hh & _).
  destruct (on_track_cases l (threads.pending c) Ht)
    as [Hfin|[(i & todo & Hi & Hhold)|(Hc & i & Hi)]].
  - left. exact Hfin.
  - right. pose proof (Forall_lookup_1 _ _ _ _ Ht Hi) as Hcur.
    destruct Hcur as [-> | [-> | [-> | [-> | ->]]]]; try discriminate Hhold.
    + eexists. eapply threads.step_backend_start. exact Hi.
    + eexists. eapply threads.step_backend_end. exact Hi.
    + eexists. eapply threads.step_release. exact Hi.
  - right. eexists. eapply threads.step_acquire; [exact Hi|].
    rewrite Hc in Hh. destruct (decide (l ∈ threads.locks c)); [lia|].
    assumption.
Qed.

Lemma locked_renders_never_deadlock_witness :
  match threads.run_schedule
          (threads.start samples.drawing samples.locked_source
             [samples.query; samples.query]) [0; 0; 0]%nat with
  | Some c => threads.finished c \/ exists c', threads.step c c'
  | None => False
  end.
Proof.
  destruct (threads.run_schedule _ _) as [c|] eqn:E.
  - apply (locked_renders_never_deadlock samples.drawing
             samples.locked_source "mapnik.lck"
             [samples.query; samples.query] c eq_refl).
    apply run_schedule_steps with (sched := [0; 0; 0]%nat). exact E.
  - vm_compute in E. discriminate E.
Defined.

(** X14: when concurrent renders under a lock have all returned, the lock
    is free and no handler is counted inside the engine. *)
Theorem locked_renders_finish_clean
  (rt : Runtime) (self : MapnikSource) (l : string)
  (queries : list MapQuery) (c : threads.Config) :
  lock self = Some l ->
  threads.reachable rt self queries c ->
  threads.finished c ->
  (l ∉ threads.locks c) /\ threads.in_backend c = 0%nat.
Proof.
  intros Hl Hreach Hfin.
  destruct (reachable_exclusive rt self l queries c Hl Hreach)
    as (_ & Hh & Hi).
  unfold threads.finished in Hfin.
  assert (H0 : threads.count_if threads.holding (threads.pending c) = 0%nat
               /\ threads.count_if threads.inside (threads.pending c) = 0%nat).
  { clear -Hfin. induction Hfin as [|t p' Ht _ IH]; [split; reflexivity|].
    subst t. simpl. exact IH. }
  destruct H0 as [H1 H2]. rewrite H1 in Hh. rewrite H2 in Hi.
  split; [|exact Hi].
  destruct (decide (l ∈ threads.locks c)); [discriminate Hh | assumption].
Qed.

Lemma locked_renders_finish_clean_witness :
  match threads.run_schedule
          (threads.start samples.drawing samples.locked_source
             [samples.query; samples.query]) [1; 1; 1; 1; 0; 0; 0; 0]%nat with
  | Some c =>
    ("mapnik.lck" ∉ threads.locks c) /\ threads.in_backend c = 0%nat
  | None => False
  end.
Proof.
  destruct (threads.run_schedule _ _) as [c|] eqn:E.
  - apply (locked_renders_finish_clean samples.drawing
             samples.locked_source "mapnik.lck"
             [samples.query; samples.query] c eq_refl).
    + apply run_schedule_steps
        with (sched := [1; 1; 1; 1; 0; 0; 0; 0]%nat). exact E.
    + vm_compute in E. injection E as <-.
      repeat constructor.
  - vm_compute in E. discriminate E.
Defined.

(** X16: without a lock nothing keeps two renders apart: from the start
    of any two concurrent calls whose map file name is resolved, a state
    with both inside the engine can be reached. *)
Theorem unlocked_renders_can_overlap
  (rt : Runtime) (self : MapnikSource) (q1 q2 : MapQuery) :
  lock self = None ->
  is_ok (resolve_mapfile rt self q1) = true ->
  is_ok (resolve_mapfile rt self q2) = true ->
  exists c, threads.reachable rt self [q1; q2] c /\
            threads.in_backend c = 2%nat.
Proof.
  intros Hl H1 H2.
  assert (Hev : forall q, is_ok (resolve_mapfile rt self q) = true ->
                          threads.render_events rt self q
                          = [EvBackendStart; EvBackendEnd]).
  { intros q Hq. unfold threads.render_events.
    destruct (resolve_mapfile rt self q) as [mf|e] eqn:Hmf; [|discriminate].
    destruct (render_outcome rt self q idle mf Hmf) as (_ & _ & _ & Et & _).
    rewrite Et, Hl. reflexivity. }
  eexists. split.
  - unfold threads.reachable.
    apply run_schedule_steps with (sched := [0; 1]%nat).
    unfold threads.start. simpl List.map.
    rewrite (Hev q1 H1), (Hev q2 H2). reflexivity.
  - reflexivity.
Qed.

Lemma unlocked_renders_can_overlap_witness :
  exists c, threads.reachable samples.drawing samples.plain_source
              [samples.query; samples.query] c /\
            threads.in_backend c = 2%nat.
Proof.
  apply (unlocked_renders_can_overlap samples.drawing samples.plain_source
           samples.query samples.query eq_refl eq_refl eq_refl).
Defined.
